(** * Oxford ITC503 driver: sweep-table programming and the stabilisation wait

    A shallow embedding of
    [pymeasure/instruments/oxfordinstruments/itc503.py]:
    the reply decoders of the properties, [program_sweep] and
    [wait_for_temperature].

    Numbers.  Python floats and ints are modelled by exact rationals ([Q]):
    comparisons are the exact ones, and arithmetic does not round.  Integers
    that the code keeps as Python [int] (counters, table lines, pointer values)
    are [Z]. *)

From Stdlib Require Import ZArith QArith Qabs Qround.
From Stdlib Require Import List Bool String Ascii Lia.
Import ListNotations.

Open Scope Z_scope.

(** ** Python values and exceptions *)

(** The exception classes the driver can raise, with the message where two
    raises of one class have to be told apart. *)
Inductive exn : Type :=
| AttributeError (msg : string)
| ValueError (msg : string)
| IndexError (msg : string)
| KeyError (msg : string)
| TimeoutError (msg : string)
| ZeroDivisionError (msg : string).

Module Py.

(** [a < b] on numbers. *)
Definition ltb (a b : Q) : bool := negb (Qle_bool b a).

(** [a <= b] on numbers. *)
Definition leb (a b : Q) : bool := Qle_bool a b.

(** [abs(x)]. *)
Definition abs (x : Q) : Q := Qabs x.

(** [int(x)] of a number: truncation toward zero. *)
Definition int (x : Q) : Z := Z.quot (Qnum x) (Zpos (Qden x)).

(** [round(x)] of a number: nearest integer, ties to the even one. *)
Definition round (x : Q) : Z :=
  let f := Qfloor x in
  match Qcompare (x - inject_Z f)%Q (1 # 2)%Q with
  | Lt => f
  | Gt => f + 1
  | Eq => if Z.even f then f else f + 1
  end.

(** [s[1:]]. *)
Definition drop1 (s : string) : string :=
  match s with
  | EmptyString => EmptyString
  | String _ r => r
  end.

(** [s[i:i+1]]: the one-character slice at offset [i], empty past the end. *)
Fixpoint slice1 (i : nat) (s : string) : string :=
  match s, i with
  | EmptyString, _ => EmptyString
  | String c _, O => String c EmptyString
  | String _ r, S j => slice1 j r
  end.

(** [s.startswith(p)]. *)
Definition startswith (p s : string) : bool := String.prefix p s.

Definition digit (c : ascii) : option Z :=
  let n := Z.of_nat (nat_of_ascii c) in
  if (48 <=? n) && (n <=? 57) then Some (n - 48) else None.

(** Value of a digit string read after [acc]; [None] on a non-digit. *)
Fixpoint digits (acc : Z) (s : string) : option Z :=
  match s with
  | EmptyString => Some acc
  | String c r =>
      match digit c with
      | Some d => digits (10 * acc + d) r
      | None => None
      end
  end.

(** Digits after the decimal point: the numerator read so far and the
    power of ten to divide by. *)
Fixpoint fraction (num : Z) (den : positive) (s : string) : option (Z * positive) :=
  match s with
  | EmptyString => Some (num, den)
  | String c r =>
      match digit c with
      | Some d => fraction (10 * num + d) (10 * den)%positive r
      | None => None
      end
  end.

(** Integer part of an unsigned decimal literal, up to the point. *)
Fixpoint mantissa (acc : Z) (seen : bool) (s : string) : option Q :=
  match s with
  | EmptyString => if seen then Some (inject_Z acc) else None
  | String c r =>
      if Ascii.eqb c "."%char then
        match r with
        | EmptyString => if seen then Some (inject_Z acc) else None
        | _ =>
            match fraction acc 1 r with
            | Some (n, d) => Some (Qred (n # d))
            | None => None
            end
        end
      else
        match digit c with
        | Some d => mantissa (10 * acc + d) true r
        | None => None
        end
  end.

(** [float(s)] on the plain decimal literals an instrument sends: an
    optional sign, digits, and an optional point with digits.  [None] is
    Python's [ValueError].  Exponents, blanks, [inf] and [nan], which
    Python's [float] also reads, are outside this model. *)
Definition float (s : string) : option Q :=
  match s with
  | String "-" r => option_map Qopp (mantissa 0 false r)
  | String "+" r => mantissa 0 false r
  | _ => mantissa 0 false s
  end.

(** [int(s)] on a string of decimal digits; [None] is [ValueError]. *)
Definition int_of_string (s : string) : option Z :=
  match s with
  | EmptyString => None
  | _ => digits 0 s
  end.

End Py.

(** ** The numpy operations [program_sweep] uses, on one-dimensional arrays *)

Module Numpy.

(** An argument that is a scalar or a sequence of numbers. *)
Inductive arg : Type :=
| Scalar (v : Q)
| Sequence (vs : list Q).

(** [numpy.array(a, ndmin=1)]. *)
Definition array (a : arg) : list Q :=
  match a with
  | Scalar v => [v]
  | Sequence vs => vs
  end.

(** [numpy.linspace(start, stop, num)], end point included: no sample for
    [num = 0], [start] alone for [num = 1], else [start + i * step] with
    [step = (stop - start) / (num - 1)] (numpy stores [stop] itself in the
    last place, the same number here).  A negative [num] raises. *)
Definition linspace (start stop : Q) (num : Z) : exn + list Q :=
  if num <? 0 then
    inl (ValueError "Number of samples must be non-negative.")
  else
    inr (match Z.to_nat num with
         | 0%nat => []
         | 1%nat => [start]
         | n =>
             let step := ((stop - start) / inject_Z (num - 1))%Q in
             map (fun i => Qred (start + inject_Z (Z.of_nat i) * step)%Q) (seq 0 n)
         end).

(** [numpy.round(a)]: every entry to the nearest integer, ties to even. *)
Definition round (a : list Q) : list Q :=
  map (fun v => inject_Z (Py.round v)) a.

(** How many leading sample points are [<= x]: for the non-decreasing
    [xp] that [interp] expects, one more than the index [j] of its search,
    which has [xp[j] <= x < xp[j+1]]. *)
Fixpoint locate (x : Q) (xp : list Q) : nat :=
  match xp with
  | [] => 0
  | p :: xp' => if Py.leb p x then S (locate x xp') else 0
  end.

(** One sample of [numpy.interp(x, xp, fp)]: [fp[0]] left of the sample
    points, [fp[-1]] at or right of the last one, [fp[j]] at a sample point,
    and the chord through points [j] and [j+1] in between. *)
Definition interp1 (xp fp : list Q) (x : Q) : Q :=
  match locate x xp with
  | O => nth 0 fp 0%Q
  | S j =>
      if Nat.eqb (S j) (List.length xp) then nth j fp 0%Q
      else
        let x0 := nth j xp 0%Q in
        let y0 := nth j fp 0%Q in
        if Qeq_bool x0 x then y0
        else
          let slope := ((nth (S j) fp 0%Q - y0) / (nth (S j) xp 0%Q - x0))%Q in
          Qred (slope * (x - x0) + y0)%Q
  end.

(** [numpy.interp(x, xp, fp)]; an empty [xp] raises. *)
Definition interp (x xp fp : list Q) : exn + list Q :=
  match xp with
  | [] => inl (ValueError "array of sample points is empty")
  | _ => inr (map (interp1 xp fp) x)
  end.

(** [a[-1]]. *)
Definition last (a : list Q) : exn + Q :=
  match rev a with
  | [] => inl (IndexError "index -1 is out of bounds for axis 0 with size 0")
  | v :: _ => inr v
  end.

(** [numpy.pad(a, (0, after), 'constant', constant_values=c)]; a negative
    width raises. *)
Definition pad (a : list Q) (after : Z) (c : Q) : exn + list Q :=
  if after <? 0 then
    inl (ValueError "index can't contain negative values")
  else
    inr (a ++ repeat c (Z.to_nat after)).

End Numpy.

(** ** The command channel *)

(** What a property setter sends.  The driver formats the value into the
    command text; the value is kept as a number here. *)
Inductive command : Type :=
| SweepStatus (v : Z)      (* "$S%d" *)
| XPointer (v : Z)         (* "$x%d" *)
| YPointer (v : Z)         (* "$y%d" *)
| SweepTable (v : Q).      (* "$s%f" *)

(** One exchange on the channel: a query with its command text, or a write. *)
Inductive event : Type :=
| Asked (cmd : string)
| Written (c : command).

(** The instrument as the sweep programmer sees it: the status line it
    answers to the query [X], and everything sent to it so far, oldest first. *)
Record adapter : Type := Adapter {
  status_line : string;
  sent : list event
}.

(** Computations that talk to the instrument and may raise. *)
Definition M (A : Type) : Type := adapter -> (exn + A) * adapter.

Definition ret {A} (a : A) : M A := fun s => (inr a, s).

Definition raise {A} (e : exn) : M A := fun s => (inl e, s).

Definition bind {A B} (m : M A) (k : A -> M B) : M B :=
  fun s =>
    match m s with
    | (inl e, s') => (inl e, s')
    | (inr a, s') => k a s'
    end.

(** A pure step that may raise. *)
Definition lift {A} (r : exn + A) : M A := fun s => (r, s).

Definition emit (e : event) : M unit :=
  fun s => (inr tt, Adapter (status_line s) (sent s ++ [e])).

Notation "x <- m ;; k" := (bind m (fun x => k))
  (at level 61, m at next level, right associativity).
Notation "m ;;; k" := (bind m (fun _ => k))
  (at level 61, right associativity).

(** The writes among the events. *)
Fixpoint writes (tr : list event) : list command :=
  match tr with
  | [] => []
  | Asked _ :: tr' => writes tr'
  | Written c :: tr' => c :: writes tr'
  end.

(** ** Properties of the ITC503 *)

Module ITC503.

(** Modelled from the spec: the validators of
    [pymeasure.instruments.validators] are not among the sources.
    [strict_range] is the range check of a property: the value itself when
    it lies within the bounds, an error otherwise. *)
Definition strict_range (value lo hi : Z) : exn + Z :=
  if (lo <=? value) && (value <=? hi) then inr value
  else inl (ValueError "Value is not in range").

(** Modelled from the spec: the property constructors [Instrument.control],
    [Instrument.setting] and [Instrument.measurement] are not among the
    sources.  A setter validates the value and writes the command; a getter
    sends its query and decodes the reply with [get_process]. *)
Definition setting {V} (validator : V -> exn + V) (cmd : V -> command) (value : V) : M unit :=
  v <- lift (validator value) ;;
  emit (Written (cmd v)).

Definition measurement {V} (get_command : string) (reply : adapter -> string)
    (get_process : string -> exn + V) : M V :=
  emit (Asked get_command) ;;;
  (fun s => (get_process (reply s), s)).

(** [values={"LL": 0, "RL": 1, "LU": 2, "RU": 3}] of [control_mode]. *)
Definition control_mode_values : list (string * Z) :=
  [("LL"%string, 0); ("RL"%string, 1); ("LU"%string, 2); ("RU"%string, 3)].

(** [map_values=True] on a getter: the key that maps to the decoded code. *)
Fixpoint key_of (code : Z) (values : list (string * Z)) : exn + string :=
  match values with
  | [] => inl (KeyError "unmapped value")
  | (k, v) :: rest => if v =? code then inr k else key_of code rest
  end.

(** [get_process=lambda v: int(v[5:6])] of [control_mode], then the key. *)
Definition control_mode_get_process (v : string) : exn + string :=
  match Py.int_of_string (Py.slice1 5 v) with
  | None => inl (ValueError "invalid literal for int() with base 10")
  | Some code => key_of code control_mode_values
  end.

(** [control_mode], read: query [X]. *)
Definition control_mode : M string :=
  measurement "X" status_line control_mode_get_process.

(** [sweep_status], written: [strict_range] over [[0, 32]]. *)
Definition set_sweep_status : Z -> M unit :=
  setting (fun v => strict_range v 0 32) SweepStatus.

(** [x_pointer], written: [strict_range] over [[0, 128]]. *)
Definition set_x_pointer : Z -> M unit :=
  setting (fun v => strict_range v 0 128) XPointer.

(** [y_pointer], written: [strict_range] over [[0, 128]]. *)
Definition set_y_pointer : Z -> M unit :=
  setting (fun v => strict_range v 0 128) YPointer.

(** [sweep_table], written: no validator. *)
Definition set_sweep_table : Q -> M unit :=
  setting (fun v => inr v) SweepTable.

(** [get_process=lambda v: float(v[1:])] of the numeric properties
    ([temperature_error], [temperature_1], [heater], ...). *)
Definition float_get_process (v : string) : exn + Q :=
  match Py.float (Py.drop1 v) with
  | Some x => inr x
  | None => inl (ValueError "could not convert string to float")
  end.

(** [zip(temperatures, sweep_time, hold_time)]. *)
Fixpoint zip3 (a b c : list Q) : list (Q * Q * Q) :=
  match a, b, c with
  | x :: a', y :: b', z :: c' => (x, y, z) :: zip3 a' b' c'
  | _, _, _ => []
  end.

(** The body of the loop over the table lines, for one line. *)
Definition program_line (line : Z) (row : Q * Q * Q) : M unit :=
  let '(setpoint, sweep, hold) := row in
  set_x_pointer line ;;;
  set_y_pointer 1 ;;;
  set_sweep_table setpoint ;;;
  set_y_pointer 2 ;;;
  set_sweep_table sweep ;;;
  set_y_pointer 3 ;;;
  set_sweep_table hold.

(** [for line, (setpoint, sweep, hold) in enumerate(rows, line): ...]. *)
Fixpoint program_lines (line : Z) (rows : list (Q * Q * Q)) : M unit :=
  match rows with
  | [] => ret tt
  | row :: rows' =>
      program_line line row ;;;
      program_lines (line + 1) rows'
  end.

(** Lines 390 to 392 (and 394 to 396, 398 to 400): one argument array
    resampled onto the steps.  [interpolator] places the entries of the
    array evenly over [1 .. steps.size], rounded. *)
Definition resample (steps a : list Q) : exn + list Q :=
  match Numpy.linspace 1 (inject_Z (Z.of_nat (List.length steps)))
          (Z.of_nat (List.length a)) with
  | inl e => inl e
  | inr pts =>
      let interpolator := Numpy.round pts in
      Numpy.interp steps interpolator a
  end.

(** Lines 384 to 407: the three columns of the sweep table, zipped. *)
Definition sweep_arrays (temperatures sweep_time hold_time : list Q) (steps : option Z)
  : exn + list (Q * Q * Q) :=
  let steps :=
    match steps with
    | None => Z.of_nat (List.length temperatures)
    | Some n => n
    end in
  match Numpy.linspace 1 (inject_Z steps) steps with
  | inl e => inl e
  | inr steps =>
  match resample steps temperatures with
  | inl e => inl e
  | inr temperatures =>
  match resample steps sweep_time with
  | inl e => inl e
  | inr sweep_time =>
  match resample steps hold_time with
  | inl e => inl e
  | inr hold_time =>
  let padding := 16 - Z.of_nat (List.length temperatures) in
  match Numpy.last temperatures with
  | inl e => inl e
  | inr last =>
  match Numpy.pad temperatures padding last with
  | inl e => inl e
  | inr temperatures =>
  match Numpy.pad sweep_time padding 0 with
  | inl e => inl e
  | inr sweep_time =>
  match Numpy.pad hold_time padding 0 with
  | inl e => inl e
  | inr hold_time => inr (zip3 temperatures sweep_time hold_time)
  end end end end end end end end.

(** [program_sweep(temperatures, sweep_time, hold_time, steps)]. *)
Definition program_sweep (temperatures sweep_time hold_time : Numpy.arg)
    (steps : option Z) : M unit :=
  mode <- control_mode ;;
  if negb (Py.startswith "R" mode) then
    raise (AttributeError "Oxford ITC503 not in remote control mode")
  else
    set_sweep_status 0 ;;;
    rows <- lift (sweep_arrays (Numpy.array temperatures) (Numpy.array sweep_time)
                    (Numpy.array hold_time) steps) ;;
    program_lines 1 rows.

End ITC503.

Definition remote_idle : adapter := Adapter "X0A0C3S00H1L0" [].
Definition local_idle : adapter := Adapter "X0A0C0S00H1L0" [].

(** ** The world of [wait_for_temperature] *)

(** The wait reads the clock, polls [should_stop], sleeps and logs.  The
    answers of the outside world are scripted: the readings [time()] will
    return and the answers [should_stop()] will give, in call order.  What
    the wait does to the world is recorded: the lengths of its sleeps and the
    numbers of the communication errors it logged, oldest first. *)
Record world : Type := World {
  clock : list Q;
  polls : list bool;
  slept : list Q;
  logged : list Z
}.

(** The arguments of [wait_for_temperature]; [should_stop] is the script
    [polls] of the world. *)
Record params : Type := Params {
  error : Q;
  timeout : Q;
  check_interval : Q;
  stability_interval : Q;
  thermalize_interval : Q;
  max_comm_errors : option Q
}.

(** The defaults of the signature. *)
Definition defaults : params :=
  Params (1 # 100) 3600 (1 # 2) 10 300 None.

(** The local variables of the polling loop. *)
Record counters : Type := Counters {
  stable_intervals : Z;
  attempt : Z;
  comm_errors : Z
}.

(** Where control goes from a point of the loop body.  [Starved]: the script
    of the world has no answer for the call made. *)
Inductive flow : Type :=
| Continue (c : counters)
| Break (c : counters)
| Return
| Raise (e : exn)
| Starved.

(** How a call ends.  [Unfinished]: the scripted world ended first. *)
Inductive outcome : Type :=
| Returns
| Raises (e : exn)
| Unfinished.

Module Wait.

Definition set_clock (w : world) (ticks : list Q) : world :=
  World ticks (polls w) (slept w) (logged w).

(** [sleep(d)]; a negative length raises. *)
Definition sleep (d : Q) (w : world) : exn + world :=
  if Py.ltb d 0 then inl (ValueError "sleep length must be non-negative")
  else inr (World (clock w) (polls w) (slept w ++ [d]) (logged w)).

(** [should_stop()]: the next scripted answer. *)
Definition should_stop (w : world) : option (bool * world) :=
  match polls w with
  | [] => None
  | b :: rest => Some (b, World (clock w) rest (slept w) (logged w))
  end.

(** Lines 310 to 323: the read of [temperature_error] and the update of the
    counters.  The reply to the query is decoded by the property's
    [get_process]; its [ValueError] is the one the loop catches. *)
Definition sample (p : params) (reply : string) (c : counters) (w : world)
  : flow * world :=
  match ITC503.float_get_process reply with
  | inl (ValueError _) =>
      let n := comm_errors c + 1 in
      (Continue (Counters (stable_intervals c) (attempt c) n),
       World (clock w) (polls w) (slept w) (logged w ++ [n]))
  | inl e => (Raise e, w)
  | inr temp_error =>
      if Py.ltb (Py.abs temp_error) (error p) then
        (Continue (Counters (stable_intervals c + 1) (attempt c) (comm_errors c)), w)
      else
        (Continue (Counters 0 (attempt c + 1) (comm_errors c)), w)
  end.

(** Line 334: [max_comm_errors is not None and comm_errors > max_comm_errors]. *)
Definition over_budget (p : params) (c : counters) : bool :=
  match max_comm_errors p with
  | None => false
  | Some m => Py.ltb m (inject_Z (comm_errors c))
  end.

(** Lines 325 to 342, after the counters are updated. *)
Definition checks (p : params) (number_of_intervals : Z) (t0 : Q)
    (c : counters) (w : world) : flow * world :=
  if number_of_intervals <=? stable_intervals c then (Break c, w)
  else
    let after_timeout (w : world) : flow * world :=
      if over_budget p c then
        (Raise (ValueError "Too many communication errors have occurred."), w)
      else
        match should_stop w with
        | None => (Starved, w)
        | Some (true, w') => (Return, w')
        | Some (false, w') =>
            match sleep (check_interval p) w' with
            | inl e => (Raise e, w')
            | inr w'' => (Continue c, w'')
            end
        end in
    if Py.ltb 0 (timeout p) then
      match clock w with
      | [] => (Starved, w)
      | now :: ticks =>
          if Py.ltb (timeout p) (now - t0) then
            (Raise (TimeoutError "Timeout expired while waiting for the Oxford ITC305 to reach the set-point temperature"),
             set_clock w ticks)
          else after_timeout (set_clock w ticks)
      end
    else after_timeout w.

(** One turn of the [while True] loop on the next reply. *)
Definition turn (p : params) (number_of_intervals : Z) (t0 : Q)
    (reply : string) (c : counters) (w : world) : flow * world :=
  match sample p reply c w with
  | (Continue c', w') => checks p number_of_intervals t0 c' w'
  | other => other
  end.

(** Lines 309 to 342: the polling loop over the scripted replies to the
    temperature-error query.  With the replies used up the loop is still
    polling: [Continue].  The replies not read are returned. *)
Fixpoint poll_loop (p : params) (number_of_intervals : Z) (t0 : Q)
    (replies : list string) (c : counters) (w : world)
  : flow * world * list string :=
  match replies with
  | [] => (Continue c, w, [])
  | reply :: rest =>
      match turn p number_of_intervals t0 reply c w with
      | (Continue c', w') => poll_loop p number_of_intervals t0 rest c' w'
      | (f, w') => (f, w', rest)
      end
  end.

(** Lines 348 to 353: the wait after stabilising, over the clock readings
    [ticks] still to come (the [clock] of [w] is not looked at). *)
Fixpoint thermalize (p : params) (t1 : Q) (ticks : list Q) (w : world)
  : outcome * world :=
  match ticks with
  | [] => (Unfinished, set_clock w [])
  | now :: ticks' =>
      if Py.ltb now t1 then
        match sleep (check_interval p) (set_clock w ticks') with
        | inl e => (Raises e, set_clock w ticks')
        | inr w' =>
            match should_stop w' with
            | None => (Unfinished, w')
            | Some (true, w'') => (Returns, w'')
            | Some (false, w'') => thermalize p t1 ticks' w''
            end
        end
      else (Returns, set_clock w ticks')
  end.

(** Line 303. *)
Definition number_of_intervals (p : params) : Z :=
  Py.int (stability_interval p / check_interval p).

(** Lines 303 to 342: up to the end of the polling loop. *)
Definition polling (p : params) (replies : list string) (w : world)
  : flow * world * list string :=
  if Qeq_bool (check_interval p) 0 then
    (Raise (ZeroDivisionError "division by zero"), w, replies)
  else
    match clock w with
    | [] => (Starved, w, replies)
    | t0 :: ticks =>
        poll_loop p (number_of_intervals p) t0 replies (Counters 0 0 0)
          (set_clock w ticks)
    end.

(** Lines 344 to 353: after the polling loop was left by [break]. *)
Definition settle (p : params) (c : counters) (w : world) : outcome * world :=
  if attempt c =? 0 then (Returns, w)
  else
    match clock w with
    | [] => (Unfinished, w)
    | now :: ticks => thermalize p (now + thermalize_interval p) ticks w
    end.

(** [wait_for_temperature(error, timeout, check_interval,
    stability_interval, thermalize_interval, should_stop, max_comm_errors)]
    on the scripted replies; the replies not read are returned. *)
Definition wait_for_temperature (p : params) (replies : list string) (w : world)
  : outcome * world * list string :=
  match polling p replies w with
  | (Break c, w', rest) =>
      let (o, w'') := settle p c w' in (o, w'', rest)
  | (Return, w', rest) => (Returns, w', rest)
  | (Raise e, w', rest) => (Raises e, w', rest)
  | (Continue _, w', rest) => (Unfinished, w', rest)
  | (Starved, w', rest) => (Unfinished, w', rest)
  end.

End Wait.

(** ** The vocabulary of the specification *)

(** What [control_mode] reports on the instrument [a]. *)
Definition reports (a : adapter) (mode : string) : Prop :=
  ITC503.control_mode_get_process (status_line a) = inr mode.

(** The two remote and the two local modes. *)
Definition remote_mode (mode : string) : Prop :=
  mode = "RL"%string \/ mode = "RU"%string.

Definition local_mode (mode : string) : Prop :=
  mode = "LL"%string \/ mode = "LU"%string.

(** The step count a call works with: [steps], or the number of
    temperatures when [steps] is [None]. *)
Definition step_count (temperatures : Numpy.arg) (steps : option Z) : Z :=
  match steps with
  | None => Z.of_nat (List.length (Numpy.array temperatures))
  | Some n => n
  end.

(** The seven writes of one table line, as the specification lists them. *)
Definition line_commands (line : Z) (row : Q * Q * Q) : list command :=
  let '(setpoint, sweep, hold) := row in
  [XPointer line;
   YPointer 1; SweepTable setpoint;
   YPointer 2; SweepTable sweep;
   YPointer 3; SweepTable hold].

(** The writes of the table lines [line], [line + 1], ... in this order. *)
Fixpoint table_commands (line : Z) (rows : list (Q * Q * Q)) : list command :=
  match rows with
  | [] => []
  | row :: rows' => line_commands line row ++ table_commands (line + 1) rows'
  end.

(** The values written to the x pointer, in order. *)
Fixpoint x_pointers (ws : list command) : list Z :=
  match ws with
  | [] => []
  | XPointer v :: ws' => v :: x_pointers ws'
  | _ :: ws' => x_pointers ws'
  end.

(** The instrument's side of the table protocol: a [sweep_table] write goes
    to the cell the last written pointers select.  The cells written, in
    order, as (x, y, value); [None] when a value is written with a pointer
    that was never set. *)
Fixpoint table_writes (x y : option Z) (ws : list command)
  : option (list (Z * Z * Q)) :=
  match ws with
  | [] => Some []
  | SweepStatus _ :: ws' => table_writes x y ws'
  | XPointer v :: ws' => table_writes (Some v) y ws'
  | YPointer v :: ws' => table_writes x (Some v) ws'
  | SweepTable v :: ws' =>
      match x, y with
      | Some i, Some j => option_map (cons (i, j, v)) (table_writes x y ws')
      | _, _ => None
      end
  end.

(** The cells of one table slot holding the triple [row]. *)
Definition slot_cells (slot : Z) (row : Q * Q * Q) : list (Z * Z * Q) :=
  let '(setpoint, sweep, hold) := row in
  [(slot, 1, setpoint); (slot, 2, sweep); (slot, 3, hold)].

(** The cells of the slots [slot], [slot + 1], ... holding [rows]. *)
Fixpoint table_cells (slot : Z) (rows : list (Q * Q * Q)) : list (Z * Z * Q) :=
  match rows with
  | [] => []
  | row :: rows' => slot_cells slot row ++ table_cells (slot + 1) rows'
  end.

(** The error of [numpy.pad] on a negative width, and of [numpy.interp] on no
    sample points. *)
Definition pad_error : exn := ValueError "index can't contain negative values".
Definition interp_error : exn := ValueError "array of sample points is empty".

(** The precondition error of [program_sweep]. *)
Definition not_remote : exn :=
  AttributeError "Oxford ITC503 not in remote control mode".

(** The fatal conditions of [wait_for_temperature]. *)
Definition timed_out : exn :=
  TimeoutError "Timeout expired while waiting for the Oxford ITC305 to reach the set-point temperature".
Definition too_many_errors : exn :=
  ValueError "Too many communication errors have occurred.".

(** A reply whose read succeeds with a temperature error inside the band. *)
Definition in_band (err : Q) (reply : string) : bool :=
  match ITC503.float_get_process reply with
  | inr t => Py.ltb (Py.abs t) err
  | inl _ => false
  end.

(** A reply whose read succeeds with a temperature error outside the band. *)
Definition out_of_band (err : Q) (reply : string) : bool :=
  match ITC503.float_get_process reply with
  | inr t => negb (Py.ltb (Py.abs t) err)
  | inl _ => false
  end.

(** A reply whose read fails: a communication error. *)
Definition failed (reply : string) : bool :=
  match ITC503.float_get_process reply with
  | inr _ => false
  | inl _ => true
  end.

Definition count (f : string -> bool) (l : list string) : Z :=
  Z.of_nat (List.length (filter f l)).

(** The replies contain a run of at least [n] in-band samples: a stretch of
    consecutive replies none of which is out of band, failed reads allowed
    and not counted, with [n] or more in-band ones. *)
Definition has_run (err : Q) (n : Z) (replies : list string) : Prop :=
  exists before run after,
    replies = before ++ run ++ after /\
    forallb (fun r => negb (out_of_band err r)) run = true /\
    n <= count (in_band err) run.


(** The counters after one more reply. *)
Definition tally (err : Q) (c : counters) (reply : string) : counters :=
  if failed reply then
    Counters (stable_intervals c) (attempt c) (comm_errors c + 1)
  else if in_band err reply then
    Counters (stable_intervals c + 1) (attempt c) (comm_errors c)
  else
    Counters 0 (attempt c + 1) (comm_errors c).

Definition start : counters := Counters 0 0 0.

(** The world after the read of one reply: a failed read is logged under
    its number. *)
Definition noted (c : counters) (w : world) (reply : string) : world :=
  if failed reply then
    World (clock w) (polls w) (slept w) (logged w ++ [comm_errors c + 1])
  else w.

(** The timeout check let the turn pass, leaving the world [w']. *)
Definition passed (p : params) (t0 : Q) (w w' : world) : Prop :=
  ((timeout p <= 0)%Q /\ w' = w) \/
  ((0 < timeout p)%Q /\
   exists now ticks,
     clock w = now :: ticks /\ (now - t0 <= timeout p)%Q /\
     w' = Wait.set_clock w ticks).

Definition pop_poll (w : world) (rest : list bool) : world :=
  World (clock w) rest (slept w) (logged w).

Definition sleep_error : exn := ValueError "sleep length must be non-negative".

(** The ways through the checks of one turn, in the order of the code. *)
Inductive checked (p : params) (n : Z) (t0 : Q) (c : counters) (w : world)
  : flow -> world -> Prop :=
| checked_break :
    n <= stable_intervals c ->
    checked p n t0 c w (Break c) w
| checked_no_clock :
    stable_intervals c < n -> (0 < timeout p)%Q -> clock w = [] ->
    checked p n t0 c w Starved w
| checked_timeout (now : Q) (ticks : list Q) :
    stable_intervals c < n -> (0 < timeout p)%Q ->
    clock w = now :: ticks -> (timeout p < now - t0)%Q ->
    checked p n t0 c w (Raise timed_out) (Wait.set_clock w ticks)
| checked_budget (w1 : world) :
    stable_intervals c < n -> passed p t0 w w1 ->
    Wait.over_budget p c = true ->
    checked p n t0 c w (Raise too_many_errors) w1
| checked_no_poll (w1 : world) :
    stable_intervals c < n -> passed p t0 w w1 ->
    Wait.over_budget p c = false -> polls w1 = [] ->
    checked p n t0 c w Starved w1
| checked_stop (w1 : world) (rest : list bool) :
    stable_intervals c < n -> passed p t0 w w1 ->
    Wait.over_budget p c = false -> polls w1 = true :: rest ->
    checked p n t0 c w Return (pop_poll w1 rest)
| checked_bad_sleep (w1 : world) (rest : list bool) :
    stable_intervals c < n -> passed p t0 w w1 ->
    Wait.over_budget p c = false -> polls w1 = false :: rest ->
    (check_interval p < 0)%Q ->
    checked p n t0 c w (Raise sleep_error) (pop_poll w1 rest)
| checked_sleep (w1 : world) (rest : list bool) :
    stable_intervals c < n -> passed p t0 w w1 ->
    Wait.over_budget p c = false -> polls w1 = false :: rest ->
    (0 <= check_interval p)%Q ->
    checked p n t0 c w (Continue c)
      (World (clock w1) rest (slept w1 ++ [check_interval p]) (logged w1)).

(** The counters after the replies [used]. *)
Definition after (err : Q) (c : counters) (used : list string) : counters :=
  fold_left (tally err) used c.

(** The character of the decimal digit [d]. *)
Definition digit_char (d : Z) : ascii := ascii_of_nat (Z.to_nat (48 + d)).




Definition is_digit (d : Z) : Prop := 0 <= d <= 9.

Ltac each_digit d H :=
  let C := fresh in
  assert (C : d = 0 \/ d = 1 \/ d = 2 \/ d = 3 \/ d = 4 \/ d = 5 \/ d = 6 \/
              d = 7 \/ d = 8 \/ d = 9) by (unfold is_digit in H; lia);
  repeat (destruct C as [-> | C]); [ .. | subst d].

(** ** The rest of the ITC503 driver *)

(** The columns of the sweep table. *)
Definition setpoints (rows : list (Q * Q * Q)) : list Q :=
  map (fun row => fst (fst row)) rows.

Definition sweep_times (rows : list (Q * Q * Q)) : list Q :=
  map (fun row => snd (fst row)) rows.

Definition hold_times (rows : list (Q * Q * Q)) : list Q :=
  map (fun row => snd row) rows.

(** What a caller may hand to the [pointer] property: a number, a list or a
    tuple of numbers. *)
Inductive pyvalue : Type :=
| PyInt (v : Z)
| PyList (vs : list Z)
| PyTuple (vs : list Z).

(** The [TypeError]s of [pointer_validator], by what they say: the
    validator's own message about the value, or the complaint of
    [str.format] that a list or a tuple takes no format code [g]. *)
Inductive type_error : Type :=
| NotListOrTuple (value : Z)
| UnsupportedFormat (type_name : string).

(** What [pointer_validator] raises: a [TypeError], or the error of
    [strict_range] on an item. *)
Inductive pointer_exn : Type :=
| TypeError (what : type_error)
| Raised (e : exn).

Module Pointer.

(** ['{:g}'.format(value)]: the text is kept as the number itself; a list
    and a tuple have no format code [g]. *)
Definition format_g (value : pyvalue) : type_error + Z :=
  match value with
  | PyInt v => inr v
  | PyList _ => inl (UnsupportedFormat "list")
  | PyTuple _ => inl (UnsupportedFormat "tuple")
  end.

(** [tuple(strict_range(v, values) for v in value)], item by item. *)
Fixpoint validated (items : list Z) (lo hi : Z) : exn + list Z :=
  match items with
  | [] => inr []
  | v :: rest =>
      match ITC503.strict_range v lo hi with
      | inl e => inl e
      | inr v' =>
          match validated rest lo hi with
          | inl e => inl e
          | inr rest' => inr (v' :: rest')
          end
      end
  end.

(** [pointer_validator(value, values)], lines 40 to 55, with the bounds
    [min(values)] and [max(values)] as [lo] and [hi].  The message of each
    [raise] is formatted before the exception is built, so a failure of the
    formatting is what is raised. *)
Definition pointer_validator (value : pyvalue) (lo hi : Z)
  : pointer_exn + list Z :=
  match value with
  | PyInt v =>
      match format_g value with
      | inl err => inl (TypeError err)
      | inr shown => inl (TypeError (NotListOrTuple shown))
      end
  | PyList items | PyTuple items =>
      if negb (Nat.eqb (List.length items) 2) then
        match format_g value with
        | inl err => inl (TypeError err)
        | inr _ => inl (Raised (IndexError "is not of length 2"))
        end
      else
        match validated items lo hi with
        | inl e => inl (Raised e)
        | inr checked_items => inr checked_items
        end
  end.

End Pointer.

Module Status.

(** [values={"MANUAL": 0, "AM": 1, "MA": 2, "AUTO": 3}] of
    [heater_gas_mode]. *)
Definition heater_gas_mode_values : list (string * Z) :=
  [("MANUAL"%string, 0); ("AM"%string, 1); ("MA"%string, 2); ("AUTO"%string, 3)].

(** [int(v[i:j])] with [j = i + len]. *)
Definition int_at (i len : nat) (v : string) : exn + Z :=
  match Py.int_of_string (String.substring i len v) with
  | None => inl (ValueError "invalid literal for int() with base 10")
  | Some code => inr code
  end.

(** [get_process=lambda v: int(v[3:4])] of [heater_gas_mode], then the key. *)
Definition heater_gas_mode_get_process (v : string) : exn + string :=
  match int_at 3 1 v with
  | inl e => inl e
  | inr code => ITC503.key_of code heater_gas_mode_values
  end.

(** [get_process=lambda v: int(v[7:9])] of [sweep_status]. *)
Definition sweep_status_get_process (v : string) : exn + Z := int_at 7 2 v.

(** [get_process=lambda v: int(v[12:13])] of [auto_pid], then the key of
    [values={True: 1, False: 0}]. *)
Definition auto_pid_get_process (v : string) : exn + bool :=
  match int_at 12 1 v with
  | inl e => inl e
  | inr code =>
      if code =? 1 then inr true
      else if code =? 0 then inr false
      else inl (KeyError "unmapped value")
  end.

(** What the setters of the mapped properties send. *)
Inductive mode_command : Type :=
| ControlMode (code : Z)        (* "$C%d" *)
| HeaterGasMode (code : Z)      (* "$A%d" *)
| TemperatureSetpoint (v : Q).  (* "$T%f" *)

(** [values[key]] of a dictionary with string keys. *)
Fixpoint lookup (key : string) (values : list (string * Z)) : option Z :=
  match values with
  | [] => None
  | (k, v) :: rest => if String.eqb k key then Some v else lookup key rest
  end.

(** Modelled from the spec: the setter of a property with
    [validator=strict_discrete_set] and [map_values=True] (the property
    constructor and the validator are not among the sources): a value that is
    no key of [values] is refused, a key is sent as the code it maps to. *)
Definition mapped_setter (cmd : Z -> mode_command) (values : list (string * Z))
    (value : string) : exn + mode_command :=
  match lookup value values with
  | None => inl (ValueError "Value is not in the discrete set")
  | Some code => inr (cmd code)
  end.

(** [control_mode], written. *)
Definition set_control_mode : string -> exn + mode_command :=
  mapped_setter ControlMode ITC503.control_mode_values.

(** [heater_gas_mode], written. *)
Definition set_heater_gas_mode : string -> exn + mode_command :=
  mapped_setter HeaterGasMode heater_gas_mode_values.

(** The class attribute [_T_RANGE = [0, 1677.7]]: one list, which the class,
    every instance and the [values] of [temperature_setpoint] share. *)
Definition T_RANGE := (Q * Q)%type.

Definition default_range : T_RANGE := (0, 16777 # 10)%Q.

(** Lines 273 to 276 of [__init__]: the bounds given are stored into the
    shared list. *)
Definition init (max_temperature min_temperature : option Q) (range : T_RANGE)
  : T_RANGE :=
  let range :=
    match min_temperature with
    | Some t => (t, snd range)
    | None => range
    end in
  match max_temperature with
  | Some t => (fst range, t)
  | None => range
  end.

(** [min(values)] and [max(values)] of the two-element range. *)
Definition lowest (range : T_RANGE) : Q :=
  if Py.leb (fst range) (snd range) then fst range else snd range.

Definition highest (range : T_RANGE) : Q :=
  if Py.leb (fst range) (snd range) then snd range else fst range.

(** Modelled from the spec: [truncated_range] of
    [pymeasure.instruments.validators], not among the sources: the value
    itself within the bounds, the nearer bound outside them. *)
Definition truncated_range (value : Q) (range : T_RANGE) : Q :=
  if Py.leb (lowest range) value && Py.leb value (highest range) then value
  else if Py.ltb (highest range) value then highest range
  else lowest range.

(** [temperature_setpoint], written, with the shared range as it is at the
    time of the write. *)
Definition set_temperature_setpoint (value : Q) (range : T_RANGE) : mode_command :=
  TemperatureSetpoint (truncated_range value range).

(** The shared range after the constructions [calls], oldest first, each
    given as its [(max_temperature, min_temperature)]. *)
Definition constructed (calls : list (option Q * option Q)) (range : T_RANGE)
  : T_RANGE :=
  fold_left (fun r call => init (fst call) (snd call) r) calls range.

(** The last bound given among [given], or [default]. *)
Definition last_given (given : list (option Q)) (default : Q) : Q :=
  fold_left (fun acc g => match g with Some t => t | None => acc end) given default.

End Status.

(** A status line with its fields in the places the getters read: the reply
    [X.A.C.S..H.L.] with one character after each letter, two after [S]. *)
Definition status_reply (x a c s1 s2 h l : ascii) : string :=
  String "X" (String x (String "A" (String a (String "C" (String c
  (String "S" (String s1 (String s2 (String "H" (String h
  (String "L" (String l EmptyString)))))))))))).

(** ** The network analyzer N5222A: reading a trace *)

(** What [get_data] sends and receives, in order. *)
Inductive trace_query : Type :=
| SensX (n : Z)         (* f"SENS{n}:X?" *)
| CalcSData (n : Z).    (* f"CALC{n}:DATA? SDATA" *)

Inductive exchange : Type :=
| Wrote (q : trace_query)
| ReadReply (reply : string).

Module N5222A.

(** [s.split(",")]: the pieces between the commas, empty pieces included. *)
Fixpoint split (s : string) : list string :=
  match s with
  | EmptyString => [EmptyString]
  | String c r =>
      if Ascii.eqb c ","%char then EmptyString :: split r
      else
        match split r with
        | piece :: pieces => String c piece :: pieces
        | [] => [String c EmptyString]
        end
  end.

(** [l[0::2]] and [l[1::2]]. *)
Fixpoint evens (l : list Q) : list Q :=
  match l with
  | [] => []
  | [a] => [a]
  | a :: _ :: l' => a :: evens l'
  end.

Fixpoint odds (l : list Q) : list Q :=
  match l with
  | [] => []
  | [_] => []
  | _ :: b :: l' => b :: odds l'
  end.

Section GetData.

(** Python's [float] on a piece of a reply ([None]: [ValueError]), and [abs]
    and [cmath.phase] on a complex number given by its real and imaginary
    part, are taken as they come. *)
Variable float : string -> option Q.
Variable R : Type.
Variables (cabs cphase : Q * Q -> R).

(** [list(map(float, pieces))]. *)
Fixpoint floats (pieces : list string) : exn + list Q :=
  match pieces with
  | [] => inr []
  | piece :: rest =>
      match float piece with
      | None => inl (ValueError "could not convert string to float")
      | Some v =>
          match floats rest with
          | inl e => inl e
          | inr vs => inr (v :: vs)
          end
      end
  end.

(** [get_data(n)], lines 129 to 143 of [agilentN5222A.py], with the two
    replies [X] and [Y] that the reads return: the exchanges on the channel
    and the result [(x, theta, r)]. *)
Definition get_data (n : Z) (X Y : string)
  : list exchange * (exn + (list Q * list R * list R)) :=
  ([Wrote (SensX n); ReadReply X; Wrote (CalcSData n); ReadReply Y],
   match floats (split X) with
   | inl e => inl e
   | inr x =>
   match floats (split Y) with
   | inl e => inl e
   | inr parsed0 =>
   let y0 := evens parsed0 in
   match floats (split Y) with
   | inl e => inl e
   | inr parsed1 =>
   let y1 := odds parsed1 in
   let y := combine y0 y1 in
   let r := map cabs y in
   let theta := map cphase y in
   inr (x, theta, r)
   end end end).

End GetData.

End N5222A.

(** The pieces joined by commas: the text of a reply. *)
Fixpoint joined (pieces : list string) : string :=
  match pieces with
  | [] => EmptyString
  | [piece] => piece
  | piece :: rest => (piece ++ String "," (joined rest))%string
  end.

(** A piece without a comma. *)
Fixpoint comma_free (s : string) : bool :=
  match s with
  | EmptyString => true
  | String c r => negb (Ascii.eqb c ","%char) && comma_free r
  end.

(** The values taken two by two: real and imaginary part of each point; a
    value left over at the end belongs to no point. *)
Fixpoint points (values : list Q) : list (Q * Q) :=
  match values with
  | re :: im :: rest => (re, im) :: points rest
  | _ => []
  end.

(** * Properties *)

(** ** Evaluation on small inputs *)

Example float_1234_5 : Py.float "1234.5" = Some (2469 # 2).
Proof. reflexivity. Qed.

Example float_neg : Py.float "-0.25" = Some (- (1 # 4))%Q.
Proof. reflexivity. Qed.

Example float_bad : Py.float "R1234.5" = None.
Proof. reflexivity. Qed.

Example int_truncates : Py.int (3 # 2) = 1 /\ Py.int (- (3 # 2)) = -1.
Proof. split; reflexivity. Qed.

Example round_ties : Py.round (3 # 2) = 2 /\ Py.round (5 # 2) = 2 /\ Py.round (1 # 2) = 0.
Proof. repeat split; reflexivity. Qed.

Example linspace_3 : Numpy.linspace 1 3 3 = inr [1; 2; 3]%Q.
Proof. reflexivity. Qed.

Example linspace_round : Numpy.round [1; 5 # 2; 4]%Q = [1; 2; 4]%Q.
Proof. reflexivity. Qed.

Example interp_mid :
  Numpy.interp [1; 2; 3; 4; 5]%Q [1; 3; 5]%Q [100; 200; 300]%Q
  = inr [100; 150; 200; 250; 300]%Q.
Proof. reflexivity. Qed.

Example interp_scalar : Numpy.interp [1; 2; 3]%Q [1]%Q [5]%Q = inr [5; 5; 5]%Q.
Proof. reflexivity. Qed.

Example mode_remote : fst (ITC503.control_mode remote_idle) = inr "RU"%string.
Proof. reflexivity. Qed.

Example mode_local : fst (ITC503.control_mode local_idle) = inr "LL"%string.
Proof. reflexivity. Qed.

(** ** The sweep-table programmer *)

Section Sweep.

Import ITC503.

Lemma control_mode_run (a : adapter) :
  control_mode a
  = (control_mode_get_process (status_line a),
     Adapter (status_line a) (sent a ++ [Asked "X"])).
Proof. reflexivity. Qed.

Lemma strict_range_in (v lo hi : Z) :
  lo <= v <= hi -> strict_range v lo hi = inr v.
Proof.
  intros [Hlo Hhi]. unfold strict_range.
  apply Z.leb_le in Hlo. apply Z.leb_le in Hhi.
  now rewrite Hlo, Hhi.
Qed.

Lemma set_x_pointer_run (v : Z) (a : adapter) :
  0 <= v <= 128 ->
  set_x_pointer v a
  = (inr tt, Adapter (status_line a) (sent a ++ [Written (XPointer v)])).
Proof.
  intros Hv. unfold set_x_pointer, setting, bind, lift.
  now rewrite (strict_range_in _ _ _ Hv).
Qed.

Lemma program_line_run (line : Z) (row : Q * Q * Q) (a : adapter) :
  0 <= line <= 128 ->
  program_line line row a
  = (inr tt,
     Adapter (status_line a) (sent a ++ map Written (line_commands line row))).
Proof.
  intros Hline. destruct row as [[setpoint sweep] hold].
  unfold program_line, bind at 1.
  rewrite (set_x_pointer_run _ _ Hline).
  cbn. unfold emit. cbn [status_line sent].
  now rewrite <- !app_assoc.
Qed.

Lemma program_lines_run (rows : list (Q * Q * Q)) :
  forall (line : Z) (a : adapter),
    0 <= line ->
    line + Z.of_nat (List.length rows) <= 129 ->
    program_lines line rows a
    = (inr tt,
       Adapter (status_line a) (sent a ++ map Written (table_commands line rows))).
Proof.
  induction rows as [|row rows IH]; intros line a Hlo Hhi.
  - cbn. now rewrite app_nil_r; destruct a.
  - cbn [program_lines table_commands]. unfold bind at 1.
    cbn [List.length] in Hhi.
    rewrite program_line_run by lia.
    rewrite IH by (cbn [status_line sent]; lia).
    cbn [status_line sent]. now rewrite map_app, app_assoc.
Qed.

(** The pointer writes of the table lines count up from the first line. *)
Lemma x_pointers_table (rows : list (Q * Q * Q)) :
  forall line : Z,
    x_pointers (table_commands line rows)
    = map (fun i => line + Z.of_nat i) (seq 0 (List.length rows)).
Proof.
  induction rows as [|[[t s] h] rows IH]; intros line; [reflexivity|].
  cbn [table_commands line_commands app x_pointers List.length seq map].
  rewrite IH, <- seq_shift, map_map. f_equal; [lia|].
  apply map_ext. intros i. lia.
Qed.

(** The instrument files every value under the pointers written just
    before it, whatever the pointers were at the start. *)
Lemma table_writes_table (rows : list (Q * Q * Q)) :
  forall (line : Z) (x y : option Z),
    table_writes x y (table_commands line rows) = Some (table_cells line rows).
Proof.
  induction rows as [|[[t s] h] rows IH]; intros line x y; [reflexivity|].
  cbn [table_commands line_commands app table_writes table_cells slot_cells option_map].
  now rewrite IH.
Qed.

End Sweep.

Section SweepArrays.

Import ITC503.

Lemma linspace_ok (start stop : Q) (num : Z) :
  0 <= num ->
  exists l, Numpy.linspace start stop num = inr l /\ List.length l = Z.to_nat num.
Proof.
  intros Hnum. unfold Numpy.linspace.
  destruct (Z.ltb_spec num 0) as [Hneg|_]; [lia|].
  eexists. split; [reflexivity|].
  destruct (Z.to_nat num) as [|[|n]]; try reflexivity.
  now rewrite length_map, length_seq.
Qed.

Lemma linspace_length (start stop : Q) (num : Z) (l : list Q) :
  Numpy.linspace start stop num = inr l ->
  0 <= num /\ List.length l = Z.to_nat num.
Proof.
  intros H. unfold Numpy.linspace in H.
  destruct (Z.ltb_spec num 0) as [Hneg|Hpos]; [discriminate|].
  split; [assumption|].
  destruct (linspace_ok start stop num Hpos) as [l' [Hl' Hlen]].
  unfold Numpy.linspace in Hl'.
  destruct (Z.ltb_spec num 0); [lia|]. congruence.
Qed.

Lemma resample_ok (steps a : list Q) :
  a <> [] ->
  exists l, resample steps a = inr l /\ List.length l = List.length steps.
Proof.
  intros Ha. unfold resample.
  destruct (linspace_ok 1 (inject_Z (Z.of_nat (List.length steps)))
              (Z.of_nat (List.length a)) ltac:(lia)) as [pts [-> Hlen]].
  rewrite Nat2Z.id in Hlen.
  unfold Numpy.interp, Numpy.round.
  destruct pts as [|pt pts].
  - destruct a; [congruence | discriminate].
  - cbn [map]. eexists. split; [reflexivity|]. now rewrite length_map.
Qed.

Lemma resample_empty (steps : list Q) :
  resample steps [] = inl interp_error.
Proof. reflexivity. Qed.

Lemma resample_length (steps a l : list Q) :
  resample steps a = inr l ->
  a <> [] /\ List.length l = List.length steps.
Proof.
  intros H. destruct a as [|v a].
  - rewrite resample_empty in H. discriminate.
  - split; [discriminate|].
    destruct (resample_ok steps (v :: a) ltac:(discriminate)) as [l' [Hl' Hlen]].
    congruence.
Qed.

Lemma last_ok (a : list Q) :
  a <> [] -> exists v, Numpy.last a = inr v.
Proof.
  intros Ha. unfold Numpy.last.
  destruct (rev a) as [|v r] eqn:Hrev.
  - apply (f_equal (@rev Q)) in Hrev. rewrite rev_involutive in Hrev.
    now destruct Ha.
  - now exists v.
Qed.

Lemma pad_length (a l : list Q) (after : Z) (c : Q) :
  Numpy.pad a after c = inr l ->
  0 <= after /\ List.length l = (List.length a + Z.to_nat after)%nat.
Proof.
  unfold Numpy.pad. destruct (Z.ltb_spec after 0); [discriminate|].
  intros [= <-]. now rewrite length_app, repeat_length.
Qed.

Lemma pad_negative (a : list Q) (after : Z) (c : Q) :
  after < 0 -> Numpy.pad a after c = inl pad_error.
Proof.
  intros H. unfold Numpy.pad. now destruct (Z.ltb_spec after 0); [|lia].
Qed.

Lemma zip3_length (a b c : list Q) (n : nat) :
  List.length a = n -> List.length b = n -> List.length c = n ->
  List.length (zip3 a b c) = n.
Proof.
  revert b c n.
  induction a as [|x a IH]; intros [|y b] [|z c] n; cbn; try congruence.
  intros Ha Hb Hc. destruct n as [|n]; [discriminate|].
  f_equal. apply IH; congruence.
Qed.

(** When the arrays are built at all, the table has sixteen lines. *)
Lemma sweep_arrays_length (temperatures sweep_time hold_time : list Q)
    (steps : option Z) (rows : list (Q * Q * Q)) :
  sweep_arrays temperatures sweep_time hold_time steps = inr rows ->
  List.length rows = 16%nat.
Proof.
  unfold sweep_arrays.
  destruct (Numpy.linspace _ _ _) as [e|grid]; [discriminate|].
  destruct (resample grid temperatures) as [e|ts] eqn:Ht; [discriminate|].
  destruct (resample grid sweep_time) as [e|ss] eqn:Hs; [discriminate|].
  destruct (resample grid hold_time) as [e|hs] eqn:Hh; [discriminate|].
  apply resample_length in Ht, Hs, Hh.
  destruct Ht as [_ Ht], Hs as [_ Hs], Hh as [_ Hh].
  destruct (Numpy.last ts) as [e|v]; [discriminate|].
  destruct (Numpy.pad ts _ v) as [e|ts'] eqn:Pt; [discriminate|].
  destruct (Numpy.pad ss _ 0) as [e|ss'] eqn:Ps; [discriminate|].
  destruct (Numpy.pad hs _ 0) as [e|hs'] eqn:Ph; [discriminate|].
  apply pad_length in Pt, Ps, Ph.
  intros [= <-]. apply zip3_length; lia.
Qed.

(** More steps than table lines: the arrays are not built.  The error is
    that of the padding when no argument is empty. *)
Lemma sweep_arrays_overlong (temperatures sweep_time hold_time : list Q)
    (steps : option Z) :
  16 < match steps with
       | None => Z.of_nat (List.length temperatures)
       | Some n => n
       end ->
  exists e,
    sweep_arrays temperatures sweep_time hold_time steps = inl e /\
    (temperatures <> [] -> sweep_time <> [] -> hold_time <> [] -> e = pad_error) /\
    (temperatures = [] \/ sweep_time = [] \/ hold_time = [] -> e = interp_error).
Proof.
  intros Hsteps. unfold sweep_arrays.
  set (n := match steps with None => _ | Some n => n end) in *.
  destruct (linspace_ok 1 (inject_Z n) n ltac:(lia)) as [grid [-> Hgrid]].
  destruct temperatures as [|t ts].
  { rewrite resample_empty. eexists. split; [reflexivity|].
    split; [congruence | reflexivity]. }
  destruct (resample_ok grid (t :: ts) ltac:(discriminate)) as [ts' [-> Hts]].
  destruct sweep_time as [|s ss].
  { rewrite resample_empty. eexists. split; [reflexivity|].
    split; [congruence | reflexivity]. }
  destruct (resample_ok grid (s :: ss) ltac:(discriminate)) as [ss' [-> Hss]].
  destruct hold_time as [|h hs].
  { rewrite resample_empty. eexists. split; [reflexivity|].
    split; [congruence | reflexivity]. }
  destruct (resample_ok grid (h :: hs) ltac:(discriminate)) as [hs' [-> Hhs]].
  destruct (last_ok ts') as [v ->].
  { intros ->. cbn in Hts. lia. }
  rewrite pad_negative by lia.
  eexists. split; [reflexivity|]. split; [reflexivity|].
  intros [H|[H|H]]; discriminate.
Qed.

Lemma program_sweep_remote (temperatures sweep_time hold_time : Numpy.arg)
    (steps : option Z) (a : adapter) (mode : string) :
  reports a mode -> remote_mode mode ->
  program_sweep temperatures sweep_time hold_time steps a
  = let a' := Adapter (status_line a) (sent a ++ [Asked "X"; Written (SweepStatus 0)]) in
    match sweep_arrays (Numpy.array temperatures) (Numpy.array sweep_time)
            (Numpy.array hold_time) steps with
    | inl e => (inl e, a')
    | inr rows => program_lines 1 rows a'
    end.
Proof.
  intros Hmode Hremote. unfold program_sweep, bind at 1.
  rewrite control_mode_run. unfold reports in Hmode. rewrite Hmode.
  assert (Hstarts : Py.startswith "R" mode = true)
    by (destruct Hremote as [-> | ->]; reflexivity).
  rewrite Hstarts. cbn [negb]. unfold bind at 1.
  cbn. rewrite <- app_assoc. cbn [app].
  unfold bind, lift.
  now destruct (sweep_arrays _ _ _ _).
Qed.

End SweepArrays.

Lemma writes_app (tr1 tr2 : list event) :
  writes (tr1 ++ tr2) = writes tr1 ++ writes tr2.
Proof.
  induction tr1 as [|[cmd|c] tr1 IH]; cbn; [reflexivity | assumption | now f_equal].
Qed.

Lemma writes_map_Write (ws : list command) : writes (map Written ws) = ws.
Proof. induction ws as [|c ws IH]; cbn; [reflexivity | now f_equal]. Qed.

(** C1.  In a remote control mode,
    [program_sweep([100, 200, 300], sweep_time=5, hold_time=2, steps=3)]
    succeeds; after the query of the control mode and the write
    [sweep_status = 0] it sends the writes of sixteen table lines, which
    program slots 1 to 3 with the triples (100, 5, 2), (200, 5, 2),
    (300, 5, 2) and slots 4 to 16 with (300, 0, 0). *)
Theorem sweep_three_setpoints (a : adapter) (mode : string) :
  reports a mode -> remote_mode mode ->
  let rows := ([(100, 5, 2); (200, 5, 2); (300, 5, 2)] ++ repeat (300, 0, 0) 13)%Q in
  let ws := SweepStatus 0 :: table_commands 1 rows in
  ITC503.program_sweep (Numpy.Sequence [100; 200; 300]%Q) (Numpy.Scalar 5)
    (Numpy.Scalar 2) (Some 3) a
  = (inr tt, Adapter (status_line a) (sent a ++ Asked "X" :: map Written ws)) /\
  table_writes None None ws = Some (table_cells 1 rows).
Proof.
  intros Hmode Hremote rows ws. split.
  - rewrite (program_sweep_remote _ _ _ _ _ _ Hmode Hremote).
    change (ITC503.sweep_arrays _ _ _ _) with (@inr exn _ rows).
    cbv zeta. cbv beta iota.
    rewrite program_lines_run by (cbn; lia).
    cbn [status_line sent]. rewrite <- app_assoc. reflexivity.
  - reflexivity.
Qed.

Lemma sweep_three_setpoints_witness :
  let rows := ([(100, 5, 2); (200, 5, 2); (300, 5, 2)] ++ repeat (300, 0, 0) 13)%Q in
  let ws := SweepStatus 0 :: table_commands 1 rows in
  ITC503.program_sweep (Numpy.Sequence [100; 200; 300]%Q) (Numpy.Scalar 5)
    (Numpy.Scalar 2) (Some 3) remote_idle
  = (inr tt, Adapter (status_line remote_idle) (sent remote_idle ++ Asked "X" :: map Written ws)) /\
  table_writes None None ws = Some (table_cells 1 rows).
Proof.
  apply (sweep_three_setpoints remote_idle "RU").
  - reflexivity.
  - right. reflexivity.
Defined.

(** C2.  When [control_mode] reports a local mode, [program_sweep] raises its
    precondition error; the query of the control mode is all it sends, so
    no write reaches the instrument. *)
Theorem local_mode_rejected (temperatures sweep_time hold_time : Numpy.arg)
    (steps : option Z) (a : adapter) (mode : string) :
  reports a mode -> local_mode mode ->
  let r := ITC503.program_sweep temperatures sweep_time hold_time steps a in
  fst r = inl not_remote /\
  sent (snd r) = sent a ++ [Asked "X"] /\
  writes (sent (snd r)) = writes (sent a).
Proof.
  intros Hmode Hlocal r.
  assert (Hr : r = (inl not_remote, Adapter (status_line a) (sent a ++ [Asked "X"]))).
  { subst r. unfold ITC503.program_sweep, bind at 1.
    rewrite control_mode_run. unfold reports in Hmode. rewrite Hmode.
    assert (Hstarts : Py.startswith "R" mode = false)
      by (destruct Hlocal as [-> | ->]; reflexivity).
    now rewrite Hstarts. }
  rewrite Hr. cbn [fst snd sent]. repeat split.
  rewrite writes_app. cbn. now rewrite app_nil_r.
Qed.

Lemma local_mode_rejected_witness :
  let r := ITC503.program_sweep (Numpy.Sequence [100; 200; 300]%Q) (Numpy.Scalar 5)
             (Numpy.Scalar 2) (Some 3) local_idle in
  fst r = inl not_remote /\
  sent (snd r) = sent local_idle ++ [Asked "X"] /\
  writes (sent (snd r)) = writes (sent local_idle).
Proof.
  apply (local_mode_rejected _ _ _ _ local_idle "LL").
  - reflexivity.
  - left. reflexivity.
Defined.

(** C9.  A call of [program_sweep] that gets to write the table (remote
    mode, arrays built) succeeds and sends, after [sweep_status = 0], the
    writes of lines 1 to 16 in increasing order: for each line the x pointer,
    then for y = 1, 2, 3 the y pointer followed by the value.  Replayed on an
    instrument whose pointers were never set, every value lands in the cell
    of its own line and field. *)
Theorem table_write_order (temperatures sweep_time hold_time : Numpy.arg)
    (steps : option Z) (a : adapter) (mode : string) (rows : list (Q * Q * Q)) :
  reports a mode -> remote_mode mode ->
  ITC503.sweep_arrays (Numpy.array temperatures) (Numpy.array sweep_time)
    (Numpy.array hold_time) steps = inr rows ->
  let ws := table_commands 1 rows in
  ITC503.program_sweep temperatures sweep_time hold_time steps a
  = (inr tt,
     Adapter (status_line a)
       (sent a ++ Asked "X" :: Written (SweepStatus 0) :: map Written ws)) /\
  List.length rows = 16%nat /\
  x_pointers ws = [1; 2; 3; 4; 5; 6; 7; 8; 9; 10; 11; 12; 13; 14; 15; 16] /\
  table_writes None None ws = Some (table_cells 1 rows).
Proof.
  intros Hmode Hremote Hrows ws.
  pose proof (sweep_arrays_length _ _ _ _ _ Hrows) as Hlen.
  repeat split.
  - rewrite (program_sweep_remote _ _ _ _ _ _ Hmode Hremote), Hrows.
    cbv zeta. rewrite program_lines_run by (rewrite ?Hlen; lia).
    cbn [status_line sent]. rewrite <- app_assoc. reflexivity.
  - exact Hlen.
  - subst ws. rewrite x_pointers_table, Hlen. reflexivity.
  - apply table_writes_table.
Qed.

Lemma table_write_order_witness :
  let rows := ([(100, 5, 2); (400, 6, 2); (500, 7, 2)] ++ repeat (500, 0, 0) 13)%Q in
  let ws := table_commands 1 rows in
  ITC503.program_sweep (Numpy.Sequence [100; 200; 300; 400; 500]%Q)
    (Numpy.Sequence [5; 7]%Q) (Numpy.Scalar 2) (Some 3) remote_idle
  = (inr tt,
     Adapter (status_line remote_idle)
       (sent remote_idle ++ Asked "X" :: Written (SweepStatus 0) :: map Written ws)) /\
  List.length rows = 16%nat /\
  x_pointers ws = [1; 2; 3; 4; 5; 6; 7; 8; 9; 10; 11; 12; 13; 14; 15; 16] /\
  table_writes None None ws = Some (table_cells 1 rows).
Proof.
  apply (table_write_order _ _ _ _ remote_idle "RU").
  - reflexivity.
  - right. reflexivity.
  - reflexivity.
Defined.

(** C10, as stated, fails: with an empty array of temperatures and
    [steps = 17] the call raises already in the interpolation, not in the
    padding. *)
Lemma overlong_sweep_empty_input :
  reports remote_idle "RU" /\ remote_mode "RU" /\
  16 < step_count (Numpy.Sequence []) (Some 17) /\
  fst (ITC503.program_sweep (Numpy.Sequence []) (Numpy.Scalar 5) (Numpy.Scalar 2)
         (Some 17) remote_idle) = inl interp_error /\
  fst (ITC503.program_sweep (Numpy.Sequence []) (Numpy.Scalar 5) (Numpy.Scalar 2)
         (Some 17) remote_idle) <> inl pad_error.
Proof.
  repeat split; try reflexivity.
  - right. reflexivity.
  - discriminate.
Qed.

(** C10, amended.  In a remote mode a call with more than sixteen steps
    raises an error after the write [sweep_status = 0] and before any pointer
    or table write: the query and that one write are all it sends.  The error
    is that of the padding (negative width) when the three arguments are
    non-empty, and that of the interpolation when one of them is empty. *)
Theorem overlong_sweep_rejected (temperatures sweep_time hold_time : Numpy.arg)
    (steps : option Z) (a : adapter) (mode : string) :
  reports a mode -> remote_mode mode ->
  16 < step_count temperatures steps ->
  exists e,
    ITC503.program_sweep temperatures sweep_time hold_time steps a
    = (inl e, Adapter (status_line a) (sent a ++ [Asked "X"; Written (SweepStatus 0)])) /\
    (Numpy.array temperatures <> [] -> Numpy.array sweep_time <> [] ->
     Numpy.array hold_time <> [] -> e = pad_error) /\
    (Numpy.array temperatures = [] \/ Numpy.array sweep_time = [] \/
     Numpy.array hold_time = [] -> e = interp_error).
Proof.
  intros Hmode Hremote Hsteps.
  destruct (sweep_arrays_overlong (Numpy.array temperatures) (Numpy.array sweep_time)
              (Numpy.array hold_time) steps) as [e [He [Hpad Hinterp]]].
  { unfold step_count in Hsteps. destruct steps; assumption. }
  exists e. split; [|split; assumption].
  rewrite (program_sweep_remote _ _ _ _ _ _ Hmode Hremote), He. reflexivity.
Qed.

Lemma overlong_sweep_rejected_witness :
  exists e,
    ITC503.program_sweep (Numpy.Sequence (repeat 100%Q 17)) (Numpy.Scalar 5)
      (Numpy.Scalar 2) None remote_idle
    = (inl e, Adapter (status_line remote_idle)
                (sent remote_idle ++ [Asked "X"; Written (SweepStatus 0)])) /\
    (Numpy.array (Numpy.Sequence (repeat 100%Q 17)) <> [] ->
     Numpy.array (Numpy.Scalar 5) <> [] ->
     Numpy.array (Numpy.Scalar 2) <> [] -> e = pad_error) /\
    (Numpy.array (Numpy.Sequence (repeat 100%Q 17)) = [] \/
     Numpy.array (Numpy.Scalar 5) = [] \/
     Numpy.array (Numpy.Scalar 2) = [] -> e = interp_error).
Proof.
  apply (overlong_sweep_rejected _ _ _ _ remote_idle "RU").
  - reflexivity.
  - right. reflexivity.
  - cbn. lia.
Defined.

(** ** The stabilisation wait *)

Lemma ltb_lt (a b : Q) : Py.ltb a b = true <-> (a < b)%Q.
Proof.
  unfold Py.ltb. rewrite negb_true_iff, <- not_true_iff_false, Qle_bool_iff.
  split; [apply Qnot_le_lt | apply Qlt_not_le].
Qed.

Lemma ltb_ge (a b : Q) : Py.ltb a b = false <-> (b <= a)%Q.
Proof.
  unfold Py.ltb. now rewrite negb_false_iff, Qle_bool_iff.
Qed.

(** The decoder of the numeric properties raises nothing but [ValueError]. *)
Lemma float_get_process_cases (reply : string) :
  (exists x, ITC503.float_get_process reply = inr x) \/
  (exists msg, ITC503.float_get_process reply = inl (ValueError msg)).
Proof.
  unfold ITC503.float_get_process.
  destruct (Py.float _); [left | right]; eexists; reflexivity.
Qed.

Lemma sample_tally (p : params) (reply : string) (c : counters) (w : world) :
  Wait.sample p reply c w = (Continue (tally (error p) c reply), noted c w reply).
Proof.
  unfold Wait.sample, tally, noted, failed, in_band.
  destruct (float_get_process_cases reply) as [[x ->] | [msg ->]]; [|reflexivity].
  now destruct (Py.ltb (Py.abs x) (error p)).
Qed.

Lemma turn_checks (p : params) (n : Z) (t0 : Q) (reply : string)
    (c : counters) (w : world) :
  Wait.turn p n t0 reply c w
  = Wait.checks p n t0 (tally (error p) c reply) (noted c w reply).
Proof. unfold Wait.turn. now rewrite sample_tally. Qed.

Lemma after_timeout_checked (p : params) (n : Z) (t0 : Q) (c : counters)
    (w w1 : world) :
  stable_intervals c < n -> passed p t0 w w1 ->
  let r :=
    if Wait.over_budget p c then (Raise too_many_errors, w1)
    else
      match Wait.should_stop w1 with
      | None => (Starved, w1)
      | Some (true, w') => (Return, w')
      | Some (false, w') =>
          match Wait.sleep (check_interval p) w' with
          | inl e => (Raise e, w')
          | inr w'' => (Continue c, w'')
          end
      end in
  checked p n t0 c w (fst r) (snd r).
Proof.
  intros Hn Hpass r. subst r.
  destruct (Wait.over_budget p c) eqn:Hb.
  { now apply checked_budget. }
  unfold Wait.should_stop.
  destruct (polls w1) as [|[|] rest] eqn:Hpolls; cbn [fst snd].
  - now apply checked_no_poll.
  - now apply checked_stop.
  - unfold Wait.sleep. cbn [clock polls slept logged].
    destruct (Py.ltb (check_interval p) 0) eqn:Hci; cbn [fst snd].
    + apply ltb_lt in Hci. now apply checked_bad_sleep.
    + apply ltb_ge in Hci. now apply (checked_sleep p n t0 c w w1 rest).
Qed.

(** Every run of the checks takes one of the ways. *)
Lemma checks_checked (p : params) (n : Z) (t0 : Q) (c : counters) (w : world) :
  checked p n t0 c w (fst (Wait.checks p n t0 c w)) (snd (Wait.checks p n t0 c w)).
Proof.
  unfold Wait.checks.
  destruct (Z.leb_spec n (stable_intervals c)) as [Hn|Hn].
  { now apply checked_break. }
  destruct (Py.ltb 0 (timeout p)) eqn:Ht.
  - apply ltb_lt in Ht.
    destruct (clock w) as [|now ticks] eqn:Hclock.
    { now apply checked_no_clock. }
    destruct (Py.ltb (timeout p) (now - t0)) eqn:Hover.
    + apply ltb_lt in Hover. now apply (checked_timeout p n t0 c w now ticks).
    + apply ltb_ge in Hover.
      apply after_timeout_checked; [assumption|].
      right. split; [assumption|]. now exists now, ticks.
  - apply ltb_ge in Ht.
    apply after_timeout_checked; [assumption|]. now left.
Qed.

Lemma checks_inv (p : params) (n : Z) (t0 : Q) (c : counters) (w : world)
    (f : flow) (w' : world) :
  Wait.checks p n t0 c w = (f, w') -> checked p n t0 c w f w'.
Proof.
  intros H. pose proof (checks_checked p n t0 c w) as Hc.
  now rewrite H in Hc.
Qed.

Lemma after_snoc (err : Q) (c : counters) (used : list string) (r : string) :
  after err c (used ++ [r]) = tally err (after err c used) r.
Proof. unfold after. now rewrite fold_left_app. Qed.


Section PollLoop.

Variables (p : params) (n : Z) (t0 : Q).

Let err := error p.

Lemma poll_loop_cons (r : string) (rs : list string) (c : counters) (w : world) :
  Wait.poll_loop p n t0 (r :: rs) c w
  = match Wait.checks p n t0 (tally err c r) (noted c w r) with
    | (Continue c', w') => Wait.poll_loop p n t0 rs c' w'
    | (f, w') => (f, w', rs)
    end.
Proof. cbn [Wait.poll_loop]. now rewrite turn_checks. Qed.

(** A turn that goes on to the next one leaves the counters alone. *)
Lemma checks_continue (c c' : counters) (w w' : world) :
  Wait.checks p n t0 c w = (Continue c', w') -> c' = c.
Proof.
  intros H. apply checks_inv in H. inversion H; reflexivity.
Qed.

(** While the loop polls, the counters are those after the replies read. *)
Lemma poll_loop_running (rs : list string) :
  forall (c c' : counters) (w w' : world) (rest : list string),
    Wait.poll_loop p n t0 rs c w = (Continue c', w', rest) ->
    rest = [] /\ c' = after err c rs.
Proof.
  induction rs as [|r rs IH]; intros c c' w w' rest H.
  - cbn in H. injection H as <- _ <-. now split.
  - rewrite poll_loop_cons in H.
    destruct (Wait.checks _ _ _ _ _) as [[c1| | | |] w1] eqn:Hturn;
      try discriminate.
    apply checks_continue in Hturn. subst c1.
    now apply IH in H.
Qed.

(** The loop on a longer script goes through the shorter one first. *)
Lemma poll_loop_app (pre post : list string) :
  forall (c c1 : counters) (w w1 : world),
    Wait.poll_loop p n t0 pre c w = (Continue c1, w1, []) ->
    Wait.poll_loop p n t0 (pre ++ post) c w = Wait.poll_loop p n t0 post c1 w1.
Proof.
  induction pre as [|r pre IH]; intros c c1 w w1 H.
  - cbn in H. injection H as <- <-. reflexivity.
  - rewrite <- app_comm_cons, poll_loop_cons. rewrite poll_loop_cons in H.
    destruct (Wait.checks _ _ _ _ _) as [[c2| | | |] w2]; try discriminate.
    now apply IH.
Qed.

(** A loop that is left was polling up to its last turn, whose checks
    decided how it is left. *)
Lemma poll_loop_last (rs : list string) :
  forall (c : counters) (w w' : world) (f : flow) (rest : list string),
    Wait.poll_loop p n t0 rs c w = (f, w', rest) ->
    (forall c', f <> Continue c') ->
    exists pre r w1,
      rs = pre ++ r :: rest /\
      Wait.poll_loop p n t0 pre c w = (Continue (after err c pre), w1, []) /\
      Wait.checks p n t0 (tally err (after err c pre) r)
        (noted (after err c pre) w1 r) = (f, w').
Proof.
  induction rs as [|r rs IH]; intros c w w' f rest H Hf.
  - cbn in H. injection H as <- _ _. now destruct (Hf c).
  - rewrite poll_loop_cons in H.
    destruct (Wait.checks _ _ _ _ _) as [f1 w1] eqn:Hturn.
    assert (Hlast : (forall c', f1 <> Continue c') ->
                    (f1, w1, rs) = (f, w', rest) ->
                    exists pre r0 w2,
                      r :: rs = pre ++ r0 :: rest /\
                      Wait.poll_loop p n t0 pre c w
                      = (Continue (after err c pre), w2, []) /\
                      Wait.checks p n t0 (tally err (after err c pre) r0)
                        (noted (after err c pre) w2 r0) = (f, w')).
    { intros _ [= <- <- <-]. exists [], r, w. repeat split. exact Hturn. }
    destruct f1 as [c1| | | |]; try (apply Hlast; [discriminate | exact H]).
    apply checks_continue in Hturn as Hc1. subst c1.
    destruct (IH _ _ _ _ _ H Hf) as [pre [r0 [w2 [-> [Hpre Hchk]]]]].
    exists (r :: pre), r0, w2. repeat split.
    + rewrite poll_loop_cons, Hturn. exact Hpre.
    + exact Hchk.
Qed.

End PollLoop.

Section Counting.

Variable err : Q.

(** A reply is a failed read, an in-band sample or an out-of-band sample,
    and moves the counters accordingly. *)
Lemma tally_cases (c : counters) (r : string) :
  (failed r = true /\ in_band err r = false /\ out_of_band err r = false /\
   tally err c r = Counters (stable_intervals c) (attempt c) (comm_errors c + 1)) \/
  (failed r = false /\ in_band err r = true /\ out_of_band err r = false /\
   tally err c r = Counters (stable_intervals c + 1) (attempt c) (comm_errors c)) \/
  (failed r = false /\ in_band err r = false /\ out_of_band err r = true /\
   tally err c r = Counters 0 (attempt c + 1) (comm_errors c)).
Proof.
  unfold tally, failed, in_band, out_of_band.
  destruct (ITC503.float_get_process r) as [e|x].
  - left. repeat split.
  - destruct (Py.ltb (Py.abs x) err); [right; left | right; right]; repeat split.
Qed.

Lemma count_cons (f : string -> bool) (r : string) (l : list string) :
  count f (r :: l) = (if f r then 1 else 0) + count f l.
Proof.
  unfold count. cbn [filter]. destruct (f r); cbn [List.length]; lia.
Qed.

Lemma count_app (f : string -> bool) (l1 l2 : list string) :
  count f (l1 ++ l2) = count f l1 + count f l2.
Proof.
  unfold count. rewrite filter_app, length_app. lia.
Qed.

Lemma count_nonneg (f : string -> bool) (l : list string) : 0 <= count f l.
Proof. unfold count. lia. Qed.

Lemma comm_errors_after (l : list string) :
  forall c, comm_errors (after err c l) = comm_errors c + count failed l.
Proof.
  induction l as [|r l IH]; intros c.
  - cbn. unfold count. cbn. lia.
  - change (after err c (r :: l)) with (after err (tally err c r) l).
    rewrite IH, count_cons.
    destruct (tally_cases c r) as [(-> & _ & _ & ->) | [(-> & _ & _ & ->) | (-> & _ & _ & ->)]];
      cbn [comm_errors]; lia.
Qed.

Lemma attempt_after (l : list string) :
  forall c, attempt (after err c l) = attempt c + count (out_of_band err) l.
Proof.
  induction l as [|r l IH]; intros c.
  - cbn. unfold count. cbn. lia.
  - change (after err c (r :: l)) with (after err (tally err c r) l).
    rewrite IH, count_cons.
    destruct (tally_cases c r) as [(_ & _ & -> & ->) | [(_ & _ & -> & ->) | (_ & _ & -> & ->)]];
      cbn [attempt]; lia.
Qed.

Lemma stable_nonneg (l : list string) :
  forall c, 0 <= stable_intervals c -> 0 <= stable_intervals (after err c l).
Proof.
  induction l as [|r l IH]; intros c Hc; [exact Hc|].
  change (after err c (r :: l)) with (after err (tally err c r) l).
  apply IH.
  destruct (tally_cases c r) as [(_ & _ & _ & ->) | [(_ & _ & _ & ->) | (_ & _ & _ & ->)]];
    cbn [stable_intervals]; lia.
Qed.


(** The stable count is the number of in-band replies in the stretch read
    since the last out-of-band one. *)
Lemma stable_is_trailing_run (l : list string) :
  exists before run,
    l = before ++ run /\
    forallb (fun r => negb (out_of_band err r)) run = true /\
    stable_intervals (after err start l) = count (in_band err) run.
Proof.
  induction l as [|r l IH] using rev_ind.
  - exists [], []. repeat split.
  - destruct IH as [before [run [-> [Hrun Hst]]]].
    rewrite after_snoc.
    destruct (tally_cases (after err start (before ++ run)) r)
      as [(_ & Hi & Ho & ->) | [(_ & Hi & Ho & ->) | (_ & _ & _ & ->)]];
      cbn [stable_intervals].
    + exists before, (run ++ [r]). rewrite app_assoc. repeat split.
      * rewrite forallb_app, Hrun. cbn. now rewrite Ho.
      * rewrite count_app, count_cons, Hi, Hst. unfold count. cbn. lia.
    + exists before, (run ++ [r]). rewrite app_assoc. repeat split.
      * rewrite forallb_app, Hrun. cbn. now rewrite Ho.
      * rewrite count_app, count_cons, Hi, Hst. unfold count. cbn. lia.
    + exists (before ++ run ++ [r]), []. rewrite app_nil_r, app_assoc.
      repeat split.
Qed.


(** A run of [m] takes [m] in-band replies. *)
Lemma has_run_count (m : Z) (l : list string) :
  has_run err m l -> m <= count (in_band err) l.
Proof.
  intros (before & run & rest & -> & _ & Hm).
  rewrite !count_app.
  pose proof (count_nonneg (in_band err) before).
  pose proof (count_nonneg (in_band err) rest).
  lia.
Qed.

(** A stable count of [m] after some replies shows a run of [m]. *)
Lemma stable_has_run (m : Z) (l : list string) :
  m <= stable_intervals (after err start l) -> has_run err m l.
Proof.
  intros Hm. destruct (stable_is_trailing_run l) as [before [run [-> [Hrun Hst]]]].
  exists before, run, []. rewrite app_nil_r. repeat split; [assumption | lia].
Qed.


End Counting.

Section Undisturbed.

(** The wait with nothing to end it but stability: no timeout, no error
    budget, a [should_stop] that says no, a sleep that works. *)
Variables (p : params) (n : Z) (t0 : Q).
Hypothesis no_timeout : (timeout p <= 0)%Q.
Hypothesis no_budget : max_comm_errors p = None.
Hypothesis sleeps : (0 <= check_interval p)%Q.



Lemma polls_noted (c : counters) (w : world) (r : string) :
  polls (noted c w r) = polls w.
Proof. unfold noted. now destruct (failed r). Qed.


End Undisturbed.

Lemma polling_loop (p : params) (replies : list string) (w : world)
    (t0 : Q) (ticks : list Q) :
  ~ (check_interval p == 0)%Q ->
  clock w = t0 :: ticks ->
  Wait.polling p replies w
  = Wait.poll_loop p (Wait.number_of_intervals p) t0 replies start
      (Wait.set_clock w ticks).
Proof.
  intros Hci Hclock. unfold Wait.polling.
  destruct (Qeq_bool (check_interval p) 0) eqn:E.
  - apply Qeq_bool_iff in E. contradiction.
  - now rewrite Hclock.
Qed.

Lemma snoc_cases {A} (l : list A) :
  l = [] \/ exists pre x, l = pre ++ [x].
Proof.
  induction l as [|x l _] using rev_ind; [now left | right; now exists l, x].
Qed.

(** A loop left by [break] has seen a run of the required length. *)
Lemma break_has_run (p : params) (n : Z) (t0 : Q) (replies rest : list string)
    (c : counters) (w w' : world) :
  Wait.poll_loop p n t0 replies start w = (Break c, w', rest) ->
  exists used,
    replies = used ++ rest /\ c = after (error p) start used /\
    n <= stable_intervals c /\ has_run (error p) n used.
Proof.
  intros H.
  apply poll_loop_last in H as [pre [r [w1 [-> [_ Hchk]]]]]; [|discriminate].
  apply checks_inv in Hchk. inversion Hchk as [Hn| | | | | | |]; subst.
  exists (pre ++ [r]). rewrite <- app_assoc, after_snoc.
  repeat split; try assumption.
  apply stable_has_run. now rewrite after_snoc.
Qed.




Section Exits.

Variable p : params.

Let n := Wait.number_of_intervals p.

Lemma clock_noted (c : counters) (w : world) (r : string) :
  clock (noted c w r) = clock w.
Proof. unfold noted. now destruct (failed r). Qed.


Lemma checks_over_budget (t0 : Q) (c : counters) (w w1 : world) :
  stable_intervals c < n ->
  passed p t0 w w1 ->
  Wait.over_budget p c = true ->
  Wait.checks p n t0 c w = (Raise too_many_errors, w1).
Proof.
  intros Hn Hpass Hb. unfold Wait.checks.
  apply Z.leb_gt in Hn. rewrite Hn, Hb.
  destruct Hpass as [[Hto ->] | [Hto (now & ticks & Hclock & Hin & ->)]].
  - apply ltb_ge in Hto. now rewrite Hto.
  - apply ltb_lt in Hto. rewrite Hto, Hclock.
    apply ltb_ge in Hin. now rewrite Hin.
Qed.

(** The wait after stabilising raises only when its sleep does. *)
Lemma thermalize_raises (t1 : Q) (ticks : list Q) :
  forall (w w' : world) (e : exn),
    Wait.thermalize p t1 ticks w = (Raises e, w') -> e = sleep_error.
Proof.
  induction ticks as [|now ticks IH]; intros w w' e H; [discriminate|].
  cbn [Wait.thermalize] in H.
  destruct (Py.ltb now t1); [|discriminate].
  unfold Wait.sleep in H.
  destruct (Py.ltb (check_interval p) 0).
  - now injection H as <- _.
  - destruct (Wait.should_stop _) as [[[|] w1]|]; try discriminate.
    now apply IH in H.
Qed.

(** Where a raised error of the call comes from. *)
Lemma wait_raises (replies rest : list string) (w w' : world) (e : exn) :
  Wait.wait_for_temperature p replies w = (Raises e, w', rest) ->
  e = sleep_error \/
  (exists msg, e = ZeroDivisionError msg) \/
  exists t0 ticks,
    clock w = t0 :: ticks /\
    Wait.poll_loop p n t0 replies start (Wait.set_clock w ticks)
    = (Raise e, w', rest).
Proof.
  unfold Wait.wait_for_temperature, Wait.polling.
  destruct (Qeq_bool (check_interval p) 0).
  { intros [= <- _ _]. right. left. now eexists. }
  destruct (clock w) as [|t0 ticks]; [discriminate|].
  destruct (Wait.poll_loop _ _ _ _ _ _) as [[[c|c| |e'|] w1] rest1] eqn:Hloop;
    try discriminate.
  - unfold Wait.settle. destruct (attempt c =? 0); [discriminate|].
    destruct (clock w1) as [|now ticks1]; [discriminate|].
    destruct (Wait.thermalize _ _ _ _) as [o w2] eqn:Hth.
    intros [= -> _ _]. left. now apply thermalize_raises in Hth.
  - intros [= <- <- <-]. right. right. now exists t0, ticks.
Qed.

End Exits.



Section Budget.

Variable p : params.

Lemma logged_passed (t0 : Q) (w w1 : world) :
  passed p t0 w w1 -> logged w1 = logged w /\ polls w1 = polls w /\ slept w1 = slept w.
Proof.
  intros [[_ ->] | [_ (now & ticks & _ & _ & ->)]]; repeat split.
Qed.

Lemma logged_noted (c : counters) (w : world) (r : string) :
  logged (noted c w r)
  = logged w ++ (if failed r then [comm_errors c + 1] else []).
Proof.
  unfold noted. destruct (failed r); cbn; [reflexivity | now rewrite app_nil_r].
Qed.

(** While the loop polls, every failed read so far was logged under its
    number, and the count was within the budget at the last check. *)
Lemma poll_loop_tolerates (n : Z) (t0 : Q) (rs : list string) :
  forall (c c' : counters) (w w' : world),
    Wait.poll_loop p n t0 rs c w = (Continue c', w', []) ->
    logged w'
    = logged w ++ map (fun i => comm_errors c + Z.of_nat i)
                    (seq 1 (List.length (filter failed rs))) /\
    (rs <> [] -> Wait.over_budget p c' = false).
Proof.
  induction rs as [|r rs IH]; intros c c' w w' H.
  - cbn in H. injection H as <- <-. cbn. rewrite app_nil_r. now split.
  - rewrite poll_loop_cons in H.
    destruct (Wait.checks _ _ _ _ _) as [[c1| | | |] w1] eqn:Hturn;
      try discriminate.
    apply checks_inv in Hturn.
    inversion Hturn as [ | | | | | | |w2 rest _ Hpass Hb _ _]; subst.
    apply logged_passed in Hpass as (Hlog & _ & _).
    pose proof H as Hloop.
    apply IH in H as [Hlogged Hbudget]. cbn [logged] in Hlogged.
    split.
    + rewrite Hlogged, Hlog, logged_noted, <- app_assoc. f_equal.
      cbn [filter].
      destruct (tally_cases (error p) c r)
        as [(-> & _ & _ & ->) | [(-> & _ & _ & ->) | (-> & _ & _ & ->)]];
        cbn [comm_errors app]; try reflexivity.
      cbn [List.length seq map]. f_equal.
      rewrite <- (seq_shift _ 1), map_map. apply map_ext. intros i. lia.
    + intros _. destruct rs as [|r' rs].
      * apply poll_loop_running in Hloop as [_ ->]. exact Hb.
      * now apply Hbudget.
Qed.

Lemma over_budget_iff (c : counters) :
  Wait.over_budget p c = true <->
  exists m, max_comm_errors p = Some m /\ (m < inject_Z (comm_errors c))%Q.
Proof.
  unfold Wait.over_budget. destruct (max_comm_errors p) as [m|].
  - rewrite ltb_lt. split.
    + intros H. now exists m.
    + now intros (m' & [= <-] & H).
  - split; [discriminate | now intros (m & ? & _)].
Qed.

End Budget.

(** C5, as stated, fails: the timeout is checked first.  With a budget of 0
    and a timeout of 1, a first read that fails at time 10 exceeds the budget,
    and the call raises the timeout error, not the communication error. *)
Lemma budget_exceeded_without_comm_error :
  let p := Params 1 1 2 4 300 (Some 0%Q) in
  let r := Wait.wait_for_temperature p ["x"%string] (World [0; 10]%Q [false] [] []) in
  max_comm_errors p = Some 0%Q /\
  (0 < inject_Z (count failed ["x"%string]))%Q /\
  r = (Raises timed_out, World [] [false] [] [1], []) /\
  fst (fst r) <> Raises too_many_errors.
Proof.
  repeat split. discriminate.
Qed.

(** C5, amended.  With [max_comm_errors] set, the call raises the
    communication error only when the count of failed reads exceeds it, and
    does raise it at the budget check of a turn that did not complete the run
    and passed the timeout check with the count in excess; while the call
    keeps polling, the failed reads were all logged and their count was within
    the budget.  With [max_comm_errors] [None] it never raises that error. *)
Theorem comm_error_budget (p : params) :
  (forall (replies rest : list string) (w w' : world),
      Wait.wait_for_temperature p replies w = (Raises too_many_errors, w', rest) ->
      exists used m,
        replies = used ++ rest /\ max_comm_errors p = Some m /\
        (m < inject_Z (count failed used))%Q) /\
  (forall (before : list string) (r : string) (post : list string)
          (w : world) (t0 : Q) (ticks : list Q) (c : counters) (w1 w2 : world) (m : Q),
      clock w = t0 :: ticks ->
      Wait.polling p before w = (Continue c, w1, []) ->
      stable_intervals (after (error p) start (before ++ [r]))
        < Wait.number_of_intervals p ->
      passed p t0 (noted c w1 r) w2 ->
      max_comm_errors p = Some m ->
      (m < inject_Z (count failed (before ++ [r])))%Q ->
      Wait.wait_for_temperature p (before ++ r :: post) w
      = (Raises too_many_errors, w2, post)) /\
  (forall (before : list string) (w : world) (c : counters) (w1 : world),
      Wait.polling p before w = (Continue c, w1, []) ->
      logged w1
      = logged w ++ map Z.of_nat (seq 1 (List.length (filter failed before))) /\
      (before <> [] ->
       forall m, max_comm_errors p = Some m ->
                 (inject_Z (count failed before) <= m)%Q)) /\
  (max_comm_errors p = None ->
   forall (replies : list string) (w : world),
     fst (fst (Wait.wait_for_temperature p replies w)) <> Raises too_many_errors).
Proof.
  assert (Hsound : forall (replies rest : list string) (w w' : world),
             Wait.wait_for_temperature p replies w = (Raises too_many_errors, w', rest) ->
             exists used m,
               replies = used ++ rest /\ max_comm_errors p = Some m /\
               (m < inject_Z (count failed used))%Q).
  { intros replies rest w w' Hwait.
    apply wait_raises in Hwait as [He | [[msg He] | (t0 & ticks & _ & Hloop)]];
      try discriminate.
    apply poll_loop_last in Hloop as (pre & r & w1 & -> & _ & Hchk); [|discriminate].
    apply checks_inv in Hchk.
    inversion Hchk as [ | | |w2 _ _ Hb | | | |]; subst.
    apply over_budget_iff in Hb as (m & Hmax & Hm).
    exists (pre ++ [r]), m. rewrite <- app_assoc. repeat split; [assumption|].
    rewrite <- after_snoc, comm_errors_after in Hm. exact Hm. }
  assert (Hpolling : forall before w c w1,
             Wait.polling p before w = (Continue c, w1, []) ->
             exists t0 ticks,
               clock w = t0 :: ticks /\ ~ (check_interval p == 0)%Q /\
               Wait.poll_loop p (Wait.number_of_intervals p) t0 before start
                 (Wait.set_clock w ticks) = (Continue c, w1, [])).
  { intros before w c w1 H. unfold Wait.polling in H.
    destruct (Qeq_bool (check_interval p) 0) eqn:E; [discriminate|].
    destruct (clock w) as [|t0 ticks]; [discriminate|].
    exists t0, ticks. repeat split; [|exact H].
    intros E'. apply Qeq_bool_iff in E'. congruence. }
  repeat split.
  - exact Hsound.
  - intros before r post w t0 ticks c w1 w2 m Hclock Hpoll Hn Hpass Hmax Hm.
    apply Hpolling in Hpoll as (t0' & ticks' & Hclock' & Hci & Hloop).
    rewrite Hclock in Hclock'. injection Hclock' as <- <-.
    unfold Wait.wait_for_temperature.
    rewrite (polling_loop p _ w t0 ticks Hci Hclock).
    apply poll_loop_running in Hloop as Hc. destruct Hc as [_ Hc].
    rewrite (poll_loop_app _ _ _ _ _ _ _ _ _ Hloop), poll_loop_cons.
    rewrite (checks_over_budget p t0 _ _ w2); try assumption.
    + reflexivity.
    + now rewrite Hc, <- after_snoc.
    + apply over_budget_iff. exists m. split; [assumption|].
      now rewrite Hc, <- after_snoc, comm_errors_after.
  - apply Hpolling in H as (t0 & ticks & _ & _ & Hloop).
    apply poll_loop_tolerates in Hloop as [Hlog _]. cbn [logged Wait.set_clock] in Hlog.
    rewrite Hlog. reflexivity.
  - intros Hne m Hmax.
    apply Hpolling in H as (t0 & ticks & _ & _ & Hloop).
    apply poll_loop_running in Hloop as Hc. destruct Hc as [_ Hc].
    apply poll_loop_tolerates in Hloop as [_ Hb]. specialize (Hb Hne).
    unfold Wait.over_budget in Hb. rewrite Hmax in Hb. apply ltb_ge in Hb.
    now rewrite Hc, comm_errors_after in Hb.
  - intros Hnone replies w Hraise.
    destruct (Wait.wait_for_temperature p replies w) as [[o w'] rest] eqn:Hwait.
    cbn [fst] in Hraise. subst o.
    apply Hsound in Hwait as (used & m & _ & Hmax & _). congruence.
Qed.

Lemma comm_error_budget_witness :
  Wait.wait_for_temperature (Params 1 0 2 4 300 (Some 1%Q)) ["x"; "y"; "R0.1"]%string
    (World [0]%Q [false; false] [] [])
  = (Raises too_many_errors, World [] [false] [2]%Q [1; 2], ["R0.1"%string]).
Proof.
  apply (proj1 (proj2 (comm_error_budget (Params 1 0 2 4 300 (Some 1%Q))))
           ["x"%string] "y"%string ["R0.1"%string]
           (World [0]%Q [false; false] [] []) 0%Q [] (Counters 0 0 1)
           (World [] [false] [2]%Q [1]) (World [] [false] [2]%Q [1; 2]) 1%Q).
  - reflexivity.
  - reflexivity.
  - vm_compute. reflexivity.
  - left. split; [discriminate | reflexivity].
  - reflexivity.
  - reflexivity.
Defined.

Section Thermalize.

Variable p : params.
Hypothesis sleeps : (0 <= check_interval p)%Q.

(** The wait after stabilising, with [should_stop] answering no: one sleep
    of [check_interval] and one poll for every clock reading before [t1],
    and the return at the first reading that is not. *)
Lemma thermalize_waits (t1 late : Q) (ticks' : list Q) (pending : list bool)
    (early : list Q) :
  forall w : world,
    Forall (fun t => (t < t1)%Q) early ->
    (t1 <= late)%Q ->
    polls w = repeat false (List.length early) ++ pending ->
    Wait.thermalize p t1 (early ++ late :: ticks') w
    = (Returns,
       World ticks' pending
         (slept w ++ repeat (check_interval p) (List.length early)) (logged w)).
Proof.
  induction early as [|now early IH]; intros w Hearly Hlate Hpolls.
  - cbn [app Wait.thermalize]. apply ltb_ge in Hlate. rewrite Hlate.
    cbn in Hpolls. cbn. rewrite app_nil_r. unfold Wait.set_clock.
    now rewrite Hpolls.
  - inversion Hearly as [|? ? Hnow Hrest]; subst.
    cbn [app Wait.thermalize]. apply ltb_lt in Hnow. rewrite Hnow.
    unfold Wait.sleep. pose proof sleeps as Hs. apply ltb_ge in Hs. rewrite Hs.
    unfold Wait.should_stop. cbn [polls Wait.set_clock clock slept logged].
    rewrite Hpolls. cbn [List.length repeat app].
    rewrite (IH _ Hrest Hlate) by reflexivity.
    cbn [slept logged]. now rewrite <- app_assoc.
Qed.

End Thermalize.

Lemma polling_break (p : params) (replies rest : list string) (w w1 : world)
    (c : counters) :
  Wait.polling p replies w = (Break c, w1, rest) ->
  exists used,
    replies = used ++ rest /\ c = after (error p) start used /\
    Wait.number_of_intervals p <= stable_intervals c.
Proof.
  unfold Wait.polling.
  destruct (Qeq_bool (check_interval p) 0); [discriminate|].
  destruct (clock w) as [|t0 ticks]; [discriminate|].
  intros H. apply break_has_run in H as (used & Hused & Hc & Hn & _).
  now exists used.
Qed.

(** C6.  When the polling loop is left by [break]: the attempt count is the
    number of out-of-band samples read.  If it is 0 the call returns at once,
    in the world the loop left: no sleep, no poll, no look at the clock.
    Otherwise the call reads the clock and, with [should_stop] answering no,
    sleeps [check_interval] and polls [should_stop] once for every clock
    reading earlier than [thermalize_interval] after that, and returns at the
    first reading that is not. *)
Theorem thermalization (p : params) (replies rest : list string) (w w1 : world)
    (c : counters) :
  Wait.polling p replies w = (Break c, w1, rest) ->
  (exists used,
      replies = used ++ rest /\ attempt c = count (out_of_band (error p)) used) /\
  (attempt c = 0 ->
   Wait.wait_for_temperature p replies w = (Returns, w1, rest)) /\
  (attempt c <> 0 ->
   forall (now : Q) (early : list Q) (late : Q) (ticks' : list Q) (pending : list bool),
     (0 <= check_interval p)%Q ->
     clock w1 = now :: early ++ late :: ticks' ->
     Forall (fun t => (t < now + thermalize_interval p)%Q) early ->
     (now + thermalize_interval p <= late)%Q ->
     polls w1 = repeat false (List.length early) ++ pending ->
     Wait.wait_for_temperature p replies w
     = (Returns,
        World ticks' pending
          (slept w1 ++ repeat (check_interval p) (List.length early)) (logged w1),
        rest)).
Proof.
  intros Hbreak. repeat split.
  - apply polling_break in Hbreak as (used & Hused & -> & _).
    exists used. split; [assumption|]. now rewrite attempt_after.
  - intros Hzero. unfold Wait.wait_for_temperature, Wait.settle.
    now rewrite Hbreak, Hzero.
  - intros Hsome now early late ticks' pending Hci Hclock Hearly Hlate Hpolls.
    unfold Wait.wait_for_temperature, Wait.settle. rewrite Hbreak.
    apply Z.eqb_neq in Hsome. rewrite Hsome, Hclock.
    now rewrite (thermalize_waits p Hci _ late ticks' pending early w1 Hearly Hlate Hpolls).
Qed.

Lemma thermalization_witness :
  Wait.wait_for_temperature (Params 1 0 2 4 10 None)
    ["R5.0"; "R0.5"; "x"; "R0.2"; "R9.9"]%string
    (World [0; 100; 102; 104; 110; 112]%Q
       [false; false; false; false; false; true] [] [])
  = (Returns, World [112]%Q [true] [2; 2; 2; 2; 2]%Q [1], ["R9.9"%string]).
Proof.
  refine (proj2 (proj2 (thermalization (Params 1 0 2 4 10 None)
           ["R5.0"; "R0.5"; "x"; "R0.2"; "R9.9"]%string ["R9.9"%string]
           (World [0; 100; 102; 104; 110; 112]%Q
              [false; false; false; false; false; true] [] [])
           (World [100; 102; 104; 110; 112]%Q [false; false; true] [2; 2; 2]%Q [1])
           (Counters 2 1 1) eq_refl))
           _ 100%Q [102; 104]%Q 110%Q [112]%Q [true] _ _ _ _ _).
  - discriminate.
  - discriminate.
  - reflexivity.
  - repeat constructor.
  - discriminate.
  - reflexivity.
Defined.

Section Cancellation.

Variable p : params.

(** What one turn asks of [should_stop]: nothing, or one question; on the
    answer yes, and only then, the turn returns. *)
Lemma checked_polls (n : Z) (t0 : Q) (c : counters) (w w' : world) (f : flow) :
  checked p n t0 c w f w' ->
  (polls w = polls w' /\ (forall c', f <> Continue c') /\ f <> Return) \/
  (polls w = false :: polls w' /\ f <> Return) \/
  (polls w = true :: polls w' /\ f = Return).
Proof.
  intros H.
  inversion H as [ | | |w1 _ Hp _|w1 _ Hp _ _|w1 rest _ Hp _ Hw1
                   |w1 rest _ Hp _ Hw1 _|w1 rest _ Hp _ Hw1 _]; subst;
    try (apply logged_passed in Hp as (_ & Hpolls & _));
    cbn [polls pop_poll Wait.set_clock].
  - left. repeat split; discriminate.
  - left. repeat split; discriminate.
  - left. repeat split; discriminate.
  - left. repeat split; try discriminate. now symmetry.
  - left. repeat split; try discriminate. now symmetry.
  - right. right. split; [congruence | reflexivity].
  - right. left. split; [congruence | discriminate].
  - right. left. split; [congruence | discriminate].
Qed.

(** Over the polling loop: every answer was no, except that a loop left by
    [return] got a final yes. *)
Lemma poll_loop_polls (n : Z) (t0 : Q) (rs : list string) :
  forall (c : counters) (w w' : world) (f : flow) (rest : list string),
    Wait.poll_loop p n t0 rs c w = (f, w', rest) ->
    exists quiet,
      Forall (eq false) quiet /\
      ((polls w = quiet ++ polls w' /\ f <> Return) \/
       (polls w = quiet ++ true :: polls w' /\ f = Return)).
Proof.
  induction rs as [|r rs IH]; intros c w w' f rest H.
  - cbn in H. injection H as <- <- _. exists []. split; [constructor|].
    left. split; [reflexivity | discriminate].
  - rewrite poll_loop_cons in H.
    destruct (Wait.checks _ _ _ _ _) as [f1 w1] eqn:Hturn.
    apply checks_inv, checked_polls in Hturn. rewrite polls_noted in Hturn.
    destruct Hturn as [(Hsame & Hnc & Hnr) | [(Hno & Hnr) | (Hyes & ->)]].
    + destruct f1 as [c1| | | |];
        try (now destruct (Hnc c1)); try (now destruct Hnr);
        injection H as <- <- _; exists []; (split; [constructor|]);
        left; (split; [assumption | discriminate]).
    + destruct f1 as [c1| | | |]; try contradiction.
      * apply IH in H as (quiet & Hquiet & Hcases).
        exists (false :: quiet). split; [now constructor|].
        rewrite Hno. cbn [app].
        destruct Hcases as [[-> Hf] | [-> Hf]]; [left | right]; now split.
      * injection H as <- <- _. exists [false]. split; [now repeat constructor|].
        left. split; [assumption | discriminate].
      * injection H as <- <- _. exists [false]. split; [now repeat constructor|].
        left. split; [assumption | discriminate].
      * injection H as <- <- _. exists [false]. split; [now repeat constructor|].
        left. split; [assumption | discriminate].
    + injection H as <- <- _. exists []. split; [constructor|].
      right. now split.
Qed.

(** Over the wait after stabilising: every answer was no, except for a
    final yes, on which the call returns. *)
Lemma thermalize_polls (t1 : Q) (ticks : list Q) :
  forall (w w' : world) (o : outcome),
    Wait.thermalize p t1 ticks w = (o, w') ->
    exists quiet,
      Forall (eq false) quiet /\
      (polls w = quiet ++ polls w' \/
       (polls w = quiet ++ true :: polls w' /\ o = Returns)).
Proof.
  induction ticks as [|now ticks IH]; intros w w' o H.
  - cbn in H. injection H as <- <-. exists []. split; [constructor | now left].
  - cbn [Wait.thermalize] in H.
    destruct (Py.ltb now t1).
    + unfold Wait.sleep in H. destruct (Py.ltb (check_interval p) 0).
      { injection H as <- <-. exists []. split; [constructor | now left]. }
      unfold Wait.should_stop in H.
      cbn [polls clock slept logged Wait.set_clock] in H.
      destruct (polls w) as [|[|] rest] eqn:Hpolls.
      * injection H as <- <-. exists []. split; [constructor | now left].
      * injection H as <- <-. exists []. split; [constructor|]. right. now split.
      * apply IH in H as (quiet & Hquiet & Hcases). cbn [polls] in Hcases.
        exists (false :: quiet). split; [now constructor|]. cbn [app].
        destruct Hcases as [-> | [-> Ho]]; [now left | right; now split].
    + injection H as <- <-. exists []. split; [constructor | now left].
Qed.

Lemma wait_polls (replies rest : list string) (w w' : world) (o : outcome) :
  Wait.wait_for_temperature p replies w = (o, w', rest) ->
  exists quiet,
    Forall (eq false) quiet /\
    (polls w = quiet ++ polls w' \/
     (polls w = quiet ++ true :: polls w' /\ o = Returns)).
Proof.
  unfold Wait.wait_for_temperature, Wait.polling.
  destruct (Qeq_bool (check_interval p) 0).
  { intros [= <- <- _]. exists []. split; [constructor | now left]. }
  destruct (clock w) as [|t0 ticks].
  { intros [= <- <- _]. exists []. split; [constructor | now left]. }
  destruct (Wait.poll_loop _ _ _ _ _ _) as [[f w1] rest1] eqn:Hloop.
  apply poll_loop_polls in Hloop as (quiet & Hquiet & Hcases).
  cbn [polls Wait.set_clock] in Hcases.
  destruct f as [c|c| |e|].
  - intros [= <- <- _]. exists quiet. split; [assumption|].
    destruct Hcases as [[-> _] | [_ Hf]]; [now left | discriminate].
  - destruct Hcases as [[Hpolls _] | [_ Hf]]; [|discriminate].
    unfold Wait.settle. destruct (attempt c =? 0).
    { intros [= <- <- _]. exists quiet. split; [assumption | now left]. }
    destruct (clock w1) as [|now ticks1].
    { intros [= <- <- _]. exists quiet. split; [assumption | now left]. }
    destruct (Wait.thermalize _ _ _ _) as [o2 w2] eqn:Hth.
    intros [= <- <- _].
    apply thermalize_polls in Hth as (quiet2 & Hquiet2 & Hcases2).
    exists (quiet ++ quiet2). split; [now apply Forall_app|].
    rewrite Hpolls.
    destruct Hcases2 as [-> | [-> Ho]]; rewrite <- !app_assoc;
      [now left | right; now split].
  - intros [= <- <- _]. exists quiet. split; [assumption|].
    destruct Hcases as [[_ Hf] | [-> _]]; [now destruct Hf | right; now split].
  - intros [= <- <- _]. exists quiet. split; [assumption|].
    destruct Hcases as [[-> _] | [_ Hf]]; [now left | discriminate].
  - intros [= <- <- _]. exists quiet. split; [assumption|].
    destruct Hcases as [[-> _] | [_ Hf]]; [now left | discriminate].
Qed.

End Cancellation.

(** C7.  The polls of [should_stop] a call makes are a prefix of the
    scripted answers, and whenever an answer was yes, it was the last poll of
    the call, all polls before it were answered no, and the call returned
    normally: for any timeout and whatever the other arguments. *)
Theorem cancellation (p : params) (replies : list string) (w : world) :
  let o := fst (fst (Wait.wait_for_temperature p replies w)) in
  let w' := snd (fst (Wait.wait_for_temperature p replies w)) in
  (exists asked, polls w = asked ++ polls w') /\
  (forall asked,
      polls w = asked ++ polls w' ->
      In true asked ->
      o = Returns /\
      exists quiet, asked = quiet ++ [true] /\ Forall (eq false) quiet).
Proof.
  intros o w'. subst o w'.
  destruct (Wait.wait_for_temperature p replies w) as [[o w'] rest] eqn:Hwait.
  cbn [fst snd].
  apply wait_polls in Hwait as (quiet & Hquiet & Hcases).
  split.
  - destruct Hcases as [H | [H _]].
    + now exists quiet.
    + exists (quiet ++ [true]). now rewrite <- app_assoc.
  - intros asked Hasked Hin.
    destruct Hcases as [H | [H Ho]].
    + rewrite H in Hasked. apply app_inv_tail in Hasked. subst asked.
      rewrite Forall_forall in Hquiet. now apply Hquiet in Hin.
    + change (quiet ++ true :: polls w') with (quiet ++ [true] ++ polls w') in H.
      rewrite app_assoc, Hasked in H. apply app_inv_tail in H. subst asked.
      split; [assumption|]. now exists quiet.
Qed.

Lemma cancellation_witness :
  fst (fst (Wait.wait_for_temperature (Params 1 1 2 4 300 None)
              ["R5.0"; "R5.0"; "R5.0"]%string
              (World [0; 1; 1; 9]%Q [false; true; false] [] [])))
  = Returns /\
  exists quiet, [false; true] = quiet ++ [true] /\ Forall (eq false) quiet.
Proof.
  apply (proj2 (cancellation (Params 1 1 2 4 300 None)
                  ["R5.0"; "R5.0"; "R5.0"]%string
                  (World [0; 1; 1; 9]%Q [false; true; false] [] []))
           [false; true]).
  - reflexivity.
  - right. left. reflexivity.
Defined.

(** ** The decoder of the numeric replies *)

Section Decoder.





End Decoder.




(** * Further properties of the driver *)

(** ** [program_sweep]: when it succeeds and what it writes *)

Section SweepColumns.

Import ITC503.

(** What [sweep_arrays] went through when it built the table. *)
Lemma sweep_arrays_columns (temperatures sweep_time hold_time : list Q)
    (steps : option Z) (rows : list (Q * Q * Q)) (N : Z) :
  sweep_arrays temperatures sweep_time hold_time steps = inr rows ->
  N = match steps with
      | None => Z.of_nat (List.length temperatures)
      | Some n => n
      end ->
  exists grid ts ss hs v,
    Numpy.linspace 1 (inject_Z N) N = inr grid /\
    resample grid temperatures = inr ts /\
    resample grid sweep_time = inr ss /\
    resample grid hold_time = inr hs /\
    Numpy.last ts = inr v /\
    1 <= N <= 16 /\
    List.length grid = Z.to_nat N /\
    rows = zip3 (ts ++ repeat v (Z.to_nat (16 - N)))
             (ss ++ repeat 0%Q (Z.to_nat (16 - N)))
             (hs ++ repeat 0%Q (Z.to_nat (16 - N))).
Proof.
  unfold sweep_arrays. intros H HNdef. rewrite <- HNdef in H.
  destruct (Numpy.linspace 1 (inject_Z N) N) as [e|grid] eqn:Hgrid; [discriminate|].
  destruct (resample grid temperatures) as [e|ts] eqn:Ht; [discriminate|].
  destruct (resample grid sweep_time) as [e|ss] eqn:Hs; [discriminate|].
  destruct (resample grid hold_time) as [e|hs] eqn:Hh; [discriminate|].
  destruct (Numpy.last ts) as [e|v] eqn:Hlast; [discriminate|].
  destruct (Numpy.pad ts _ v) as [e|ts'] eqn:Pt; [discriminate|].
  destruct (Numpy.pad ss _ 0) as [e|ss'] eqn:Ps; [discriminate|].
  destruct (Numpy.pad hs _ 0) as [e|hs'] eqn:Ph; [discriminate|].
  injection H as <-.
  apply linspace_length in Hgrid as Hlen. destruct Hlen as [HN Hlen].
  apply resample_length in Ht as Hts. destruct Hts as [_ Hts].
  assert (Hpos : ts <> []).
  { intros ->. discriminate. }
  assert (Hts1 : (0 < List.length ts)%nat).
  { destruct ts; [contradiction | cbn; lia]. }
  apply pad_length in Pt as Hpad. destruct Hpad as [Hpad _].
  unfold Numpy.pad in Pt, Ps, Ph.
  destruct (Z.ltb_spec (16 - Z.of_nat (List.length ts)) 0); [lia|].
  injection Pt as <-. injection Ps as <-. injection Ph as <-.
  assert (HNts : Z.of_nat (List.length ts) = N) by lia.
  rewrite HNts.
  exists grid, ts, ss, hs, v. repeat split; try assumption; lia.
Qed.

Lemma sweep_arrays_ok (temperatures sweep_time hold_time : list Q)
    (steps : option Z) :
  1 <= match steps with
       | None => Z.of_nat (List.length temperatures)
       | Some n => n
       end <= 16 ->
  temperatures <> [] -> sweep_time <> [] -> hold_time <> [] ->
  exists rows, sweep_arrays temperatures sweep_time hold_time steps = inr rows.
Proof.
  intros HN Ht Hs Hh. unfold sweep_arrays.
  set (N := match steps with None => _ | Some n => n end) in *.
  destruct (linspace_ok 1 (inject_Z N) N ltac:(lia)) as [grid [-> Hgrid]].
  destruct (resample_ok grid temperatures Ht) as [ts [-> Hts]].
  destruct (resample_ok grid sweep_time Hs) as [ss [-> Hss]].
  destruct (resample_ok grid hold_time Hh) as [hs [-> Hhs]].
  destruct (last_ok ts) as [v ->].
  { intros ->. cbn in Hts. lia. }
  unfold Numpy.pad.
  destruct (Z.ltb_spec (16 - Z.of_nat (List.length ts)) 0); [lia|].
  now eexists.
Qed.

End SweepColumns.

(** X1.  In a remote mode [program_sweep] succeeds exactly when the step
    count lies between 1 and 16 and none of the three arguments is an empty
    array. *)
Theorem sweep_succeeds_iff (temperatures sweep_time hold_time : Numpy.arg)
    (steps : option Z) (a : adapter) (mode : string) :
  reports a mode -> remote_mode mode ->
  fst (ITC503.program_sweep temperatures sweep_time hold_time steps a) = inr tt <->
  1 <= step_count temperatures steps <= 16 /\
  Numpy.array temperatures <> [] /\
  Numpy.array sweep_time <> [] /\
  Numpy.array hold_time <> [].
Proof.
  intros Hmode Hremote.
  rewrite (program_sweep_remote _ _ _ _ _ _ Hmode Hremote). cbv zeta.
  split.
  - destruct (ITC503.sweep_arrays _ _ _ _) as [e|rows] eqn:Hrows; [discriminate|].
    intros _.
    apply (sweep_arrays_columns _ _ _ _ _ _) with (2 := eq_refl) in Hrows
      as (grid & ts & ss & hs & v & _ & Ht & Hs & Hh & _ & HN & _).
    apply resample_length in Ht as [Ht _], Hs as [Hs _], Hh as [Hh _].
    split; [|now repeat split].
    unfold step_count. exact HN.
  - intros (HN & Ht & Hs & Hh).
    destruct (sweep_arrays_ok (Numpy.array temperatures) (Numpy.array sweep_time)
                (Numpy.array hold_time) steps) as [rows Hrows]; try assumption.
    rewrite Hrows.
    pose proof (sweep_arrays_length _ _ _ _ _ Hrows) as Hlen.
    rewrite program_lines_run by (rewrite ?Hlen; lia). reflexivity.
Qed.

Lemma sweep_succeeds_iff_witness :
  fst (ITC503.program_sweep (Numpy.Sequence [4; 8; 16]%Q) (Numpy.Scalar 30)
         (Numpy.Sequence [1; 2]%Q) (Some 16) remote_idle) = inr tt.
Proof.
  apply (sweep_succeeds_iff _ _ _ _ remote_idle "RU").
  - reflexivity.
  - right. reflexivity.
  - repeat split; cbn; try lia; discriminate.
Defined.

(** X2.  In a remote mode the running sweep is stopped first, whatever
    becomes of the call: what it sends starts with the query of the control
    mode and the write [sweep_status = 0], also when it then raises. *)
Theorem sweep_stopped_first (temperatures sweep_time hold_time : Numpy.arg)
    (steps : option Z) (a : adapter) (mode : string) :
  reports a mode -> remote_mode mode ->
  exists more,
    sent (snd (ITC503.program_sweep temperatures sweep_time hold_time steps a))
    = sent a ++ Asked "X" :: Written (SweepStatus 0) :: more.
Proof.
  intros Hmode Hremote.
  rewrite (program_sweep_remote _ _ _ _ _ _ Hmode Hremote). cbv zeta.
  destruct (ITC503.sweep_arrays _ _ _ _) as [e|rows] eqn:Hrows.
  - exists []. reflexivity.
  - pose proof (sweep_arrays_length _ _ _ _ _ Hrows) as Hlen.
    rewrite program_lines_run by (rewrite ?Hlen; lia).
    exists (map Written (table_commands 1 rows)).
    cbn [snd sent]. now rewrite <- app_assoc.
Qed.

Lemma sweep_stopped_first_witness :
  exists more,
    sent (snd (ITC503.program_sweep (Numpy.Sequence [100; 200]%Q) (Numpy.Scalar 5)
                 (Numpy.Scalar 2) (Some 0) remote_idle))
    = sent remote_idle ++ Asked "X" :: Written (SweepStatus 0) :: more.
Proof.
  apply (sweep_stopped_first _ _ _ _ remote_idle "RU").
  - reflexivity.
  - right. reflexivity.
Defined.

Section SweepValues.

Import ITC503.

Lemma inject_Z_pred (N : Z) : (inject_Z N - 1 == inject_Z (N - 1))%Q.
Proof. unfold Qeq, Qminus, Qplus. cbn. lia. Qed.

(** The samples of [linspace(1, N, N)] are 1, 2, ..., as numbers. *)
Lemma unit_step (N : Z) (i : nat) :
  2 <= N ->
  (Qred (1 + inject_Z (Z.of_nat i) * ((inject_Z N - 1) / inject_Z (N - 1)))
   == inject_Z (Z.of_nat i + 1))%Q.
Proof.
  intros HN. rewrite Qred_correct, inject_Z_pred.
  assert (Hd : ~ (inject_Z (N - 1) == 0)%Q) by (unfold Qeq; cbn; lia).
  unfold Qdiv. rewrite (Qmult_inv_r _ Hd), Qmult_1_r, inject_Z_plus.
  apply Qplus_comm.
Qed.

(** The samples of [linspace(1, n, m)] do not pass [n]. *)
Lemma step_bounded (n m : Z) (k : nat) :
  1 <= n -> 2 <= m -> Z.of_nat k <= m - 1 ->
  (Qred (1 + inject_Z (Z.of_nat k) * ((inject_Z n - 1) / inject_Z (m - 1)))
   <= inject_Z n)%Q.
Proof.
  intros Hn Hm Hk. rewrite Qred_correct, inject_Z_pred.
  assert (Hd : (0 < inject_Z (m - 1))%Q) by (unfold Qlt; cbn; lia).
  assert (Ha : (0 <= inject_Z (n - 1))%Q) by (unfold Qle; cbn; lia).
  assert (Hstep : (inject_Z (Z.of_nat k) * (inject_Z (n - 1) / inject_Z (m - 1))
                   <= inject_Z (n - 1))%Q).
  { unfold Qdiv. rewrite Qmult_assoc. apply Qle_shift_div_r; [exact Hd|].
    rewrite (Qmult_comm (inject_Z (n - 1)) (inject_Z (m - 1))).
    apply Qmult_le_compat_r; [|exact Ha].
    rewrite <- Zle_Qle. exact Hk. }
  replace n with (1 + (n - 1)) at 2 by lia.
  rewrite inject_Z_plus. apply Qplus_le_r. exact Hstep.
Qed.

Lemma round_integer (x : Q) (z : Z) : (x == inject_Z z)%Q -> Py.round x = z.
Proof.
  intros Hx. unfold Py.round.
  assert (Hf : Qfloor x = z) by (rewrite Hx; apply Qfloor_Z).
  rewrite Hf.
  assert (Hlt : (x - inject_Z z < 1 # 2)%Q).
  { rewrite Hx. setoid_replace (inject_Z z - inject_Z z)%Q with 0%Q by ring.
    reflexivity. }
  destruct (Qcompare_spec (x - inject_Z z) (1 # 2)) as [E|L|G].
  - rewrite E in Hlt. now apply Qlt_irrefl in Hlt.
  - reflexivity.
  - exfalso. apply (Qlt_irrefl (1 # 2)).
    now apply Qlt_trans with (x - inject_Z z)%Q.
Qed.

Lemma round_le (x : Q) (z : Z) : (x <= inject_Z z)%Q -> Py.round x <= z.
Proof.
  intros Hx.
  pose proof (Qfloor_le x) as Hfl.
  assert (Hfz : Qfloor x <= z).
  { rewrite Zle_Qle. now apply Qle_trans with x. }
  destruct (Z.eq_dec (Qfloor x) z) as [E|E].
  - assert (Heq : (x == inject_Z z)%Q).
    { apply Qle_antisym; [exact Hx|]. now rewrite <- E. }
    rewrite (round_integer x z Heq). lia.
  - unfold Py.round.
    destruct (Qcompare _ _); [destruct (Z.even _)| |]; lia.
Qed.

Lemma linspace_many (start stop : Q) (num : Z) :
  2 <= num ->
  Numpy.linspace start stop num
  = inr (map (fun i => Qred (start + inject_Z (Z.of_nat i)
                                     * ((stop - start) / inject_Z (num - 1)))%Q)
             (seq 0 (Z.to_nat num))).
Proof.
  intros Hnum. unfold Numpy.linspace.
  destruct (Z.ltb_spec num 0); [lia|].
  destruct (Z.to_nat num) as [|[|k]] eqn:E; [lia | lia | reflexivity].
Qed.

(** The grid of the steps: [linspace(1, N, N)] is 1, 2, ..., N. *)
Lemma grid_shape (N : Z) :
  1 <= N ->
  exists h,
    Numpy.linspace 1 (inject_Z N) N = inr (map h (seq 0 (Z.to_nat N))) /\
    forall i, (h i == inject_Z (Z.of_nat i + 1))%Q.
Proof.
  intros HN. destruct (Z.eq_dec N 1) as [-> | Hne].
  - exists (fun i => inject_Z (Z.of_nat i + 1)). split; reflexivity.
  - eexists. split; [apply linspace_many; lia|].
    intros i. cbv beta. apply unit_step. lia.
Qed.

(** The places of the entries of an array of [m] entries on [n] steps:
    [linspace(1, n, m)] stays within [n]. *)
Lemma places_shape (n m : Z) :
  1 <= n -> 1 <= m ->
  exists g,
    Numpy.linspace 1 (inject_Z n) m = inr (map g (seq 0 (Z.to_nat m))) /\
    forall k, (k < Z.to_nat m)%nat -> (g k <= inject_Z n)%Q.
Proof.
  intros Hn Hm. destruct (Z.eq_dec m 1) as [-> | Hne].
  - exists (fun _ => 1%Q). split; [reflexivity|].
    intros k _. change 1%Q with (inject_Z 1). rewrite <- Zle_Qle. exact Hn.
  - eexists. split; [apply linspace_many; lia|].
    intros k Hk. cbv beta. apply step_bounded; lia.
Qed.

Lemma leb_le (a b : Q) : Py.leb a b = true <-> (a <= b)%Q.
Proof. unfold Py.leb. apply Qle_bool_iff. Qed.

(** At or right of every sample point, the search stops at the last one. *)
Lemma locate_all (x : Q) (xp : list Q) :
  Forall (fun pt => (pt <= x)%Q) xp -> Numpy.locate x xp = List.length xp.
Proof.
  induction 1 as [|pt xp Hpt _ IH]; [reflexivity|].
  cbn [Numpy.locate List.length]. apply leb_le in Hpt. now rewrite Hpt, IH.
Qed.

(** On the sample points 1, 2, ... the search finds the point itself. *)
Lemma locate_ramp (x : Q) (i : nat) (len : nat) :
  (x == inject_Z (Z.of_nat i + 1))%Q ->
  forall a : nat,
    Numpy.locate x (map (fun k => inject_Z (Z.of_nat k + 1)) (seq a len))
    = Nat.min len (i + 1 - a).
Proof.
  intros Hx. induction len as [|len IH]; intros a; [reflexivity|].
  cbn [seq map Numpy.locate].
  destruct (Py.leb (inject_Z (Z.of_nat a + 1)) x) eqn:Hle.
  - apply leb_le in Hle. rewrite Hx, <- Zle_Qle in Hle.
    rewrite IH. lia.
  - assert (Hgt : ~ (inject_Z (Z.of_nat a + 1) <= x)%Q).
    { intros Hle'. apply leb_le in Hle'. congruence. }
    rewrite Hx, <- Zle_Qle in Hgt. lia.
Qed.

Lemma nth_ramp (i n : nat) :
  (i < n)%nat ->
  nth i (map (fun k => inject_Z (Z.of_nat k + 1)) (seq 0 n)) 0%Q
  = inject_Z (Z.of_nat i + 1).
Proof.
  intros Hi.
  rewrite (nth_indep _ 0%Q (inject_Z (Z.of_nat 0 + 1)))
    by (now rewrite length_map, length_seq).
  rewrite (map_nth (fun k => inject_Z (Z.of_nat k + 1)) (seq 0 n) 0%nat i).
  now rewrite seq_nth.
Qed.

(** Interpolation at a sample point of the ramp gives the value stored
    there. *)
Lemma interp1_ramp (fp : list Q) (x : Q) (i : nat) :
  (i < List.length fp)%nat ->
  (x == inject_Z (Z.of_nat i + 1))%Q ->
  Numpy.interp1 (map (fun k => inject_Z (Z.of_nat k + 1)) (seq 0 (List.length fp)))
    fp x
  = nth i fp 0%Q.
Proof.
  intros Hi Hx. unfold Numpy.interp1.
  rewrite (locate_ramp x i _ Hx 0%nat).
  replace (Nat.min (List.length fp) (i + 1 - 0)) with (S i) by lia.
  rewrite length_map, length_seq.
  destruct (Nat.eqb (S i) (List.length fp)); [reflexivity|].
  rewrite (nth_ramp i _ Hi).
  assert (Heq : Qeq_bool (inject_Z (Z.of_nat i + 1)) x = true).
  { apply Qeq_bool_iff. now symmetry. }
  now rewrite Heq.
Qed.

Lemma nth_seq_self (l : list Q) :
  map (fun i => nth i l 0%Q) (seq 0 (List.length l)) = l.
Proof.
  induction l as [|v l IH]; [reflexivity|].
  cbn [List.length seq map nth]. f_equal.
  rewrite <- seq_shift, map_map. exact IH.
Qed.

Lemma interp_nonempty (x xp fp : list Q) :
  xp <> [] -> Numpy.interp x xp fp = inr (map (Numpy.interp1 xp fp) x).
Proof. intros H. unfold Numpy.interp. now destruct xp. Qed.

(** An array with one entry per step is resampled to itself. *)
Lemma resample_identity (fp grid : list Q) (h : nat -> Q) :
  fp <> [] ->
  grid = map h (seq 0 (List.length fp)) ->
  Numpy.linspace 1 (inject_Z (Z.of_nat (List.length fp))) (Z.of_nat (List.length fp))
  = inr grid ->
  (forall i, (h i == inject_Z (Z.of_nat i + 1))%Q) ->
  resample grid fp = inr fp.
Proof.
  intros Hne Hgrid Hlin Hh. unfold resample.
  assert (Hlen : List.length grid = List.length fp)
    by (now rewrite Hgrid, length_map, length_seq).
  rewrite Hlen, Hlin. cbv zeta.
  assert (Hramp : Numpy.round grid
                  = map (fun k => inject_Z (Z.of_nat k + 1)) (seq 0 (List.length fp))).
  { rewrite Hgrid. unfold Numpy.round. rewrite map_map. apply map_ext.
    intros k. f_equal. apply round_integer, Hh. }
  rewrite Hramp, interp_nonempty.
  - f_equal. rewrite Hgrid, map_map.
    transitivity (map (fun i => nth i fp 0%Q) (seq 0 (List.length fp)));
      [|apply nth_seq_self].
    apply map_ext_in. intros i Hi. apply in_seq in Hi.
    apply interp1_ramp; [lia | apply Hh].
  - destruct fp; [contradiction | discriminate].
Qed.

Lemma interp1_single (v x : Q) : Numpy.interp1 [1%Q] [v] x = v.
Proof.
  unfold Numpy.interp1. cbn [Numpy.locate]. now destruct (Py.leb 1 x).
Qed.

(** An array of one entry is resampled to that entry at every step. *)
Lemma resample_single (grid : list Q) (v : Q) :
  resample grid [v] = inr (repeat v (List.length grid)).
Proof.
  unfold resample. change (Z.of_nat (List.length [v])) with 1.
  assert (E : Numpy.linspace 1 (inject_Z (Z.of_nat (List.length grid))) 1
              = inr [1%Q]) by reflexivity.
  rewrite E. cbv zeta.
  replace (Numpy.round [1%Q]) with [1%Q] by reflexivity.
  rewrite interp_nonempty by discriminate. f_equal.
  induction grid as [|x grid IH]; [reflexivity|].
  cbn [map List.length repeat]. now rewrite IH, interp1_single.
Qed.

Lemma last_snoc (l : list Q) (x : Q) : Numpy.last (l ++ [x]) = inr x.
Proof. unfold Numpy.last. now rewrite rev_unit. Qed.

Lemma last_nth (l : list Q) :
  l <> [] -> Numpy.last l = inr (nth (List.length l - 1) l 0%Q).
Proof.
  intros Hne. destruct (snoc_cases l) as [-> | [pre [x ->]]]; [contradiction|].
  rewrite last_snoc, length_app. cbn [List.length].
  rewrite app_nth2 by lia.
  replace (List.length pre + 1 - 1 - List.length pre)%nat with 0%nat by lia.
  reflexivity.
Qed.

(** The last step takes the last entry of the array, however many entries
    there are. *)
Lemma resample_last (N : Z) (grid fp ts : list Q) :
  1 <= N ->
  Numpy.linspace 1 (inject_Z N) N = inr grid ->
  resample grid fp = inr ts ->
  Numpy.last ts = Numpy.last fp.
Proof.
  intros HN Hlin Hres.
  apply resample_length in Hres as Hfp. destruct Hfp as [Hfp _].
  destruct (grid_shape N HN) as [h [Hgrid Hh]].
  rewrite Hlin in Hgrid. injection Hgrid as Hgrid.
  assert (Hlen : List.length grid = Z.to_nat N)
    by (now rewrite Hgrid, length_map, length_seq).
  unfold resample in Hres. rewrite Hlen, Z2Nat.id in Hres by lia.
  destruct (places_shape N (Z.of_nat (List.length fp)) HN) as [g [Hpts Hg]].
  { destruct fp; [contradiction | cbn [List.length]; lia]. }
  rewrite Hpts in Hres. cbv zeta in Hres. rewrite Nat2Z.id in Hg, Hres.
  unfold Numpy.interp in Hres.
  destruct (Numpy.round (map g (seq 0 (List.length fp)))) as [|pt xp] eqn:Hxp;
    [discriminate|].
  injection Hres as <-. rewrite <- Hxp.
  destruct (Z.to_nat N) as [|n] eqn:En; [lia|].
  rewrite Hgrid, seq_S, !map_app. cbn [map]. rewrite last_snoc.
  rewrite (last_nth fp Hfp). f_equal.
  unfold Numpy.interp1. rewrite locate_all.
  - unfold Numpy.round. rewrite !length_map, length_seq.
    destruct (List.length fp) as [|m] eqn:Em.
    { destruct fp; [contradiction | discriminate]. }
    rewrite Nat.eqb_refl. f_equal. lia.
  - unfold Numpy.round. rewrite Forall_map, Forall_map, Forall_forall.
    intros k Hk. apply in_seq in Hk.
    rewrite (Hh (0 + n)%nat).
    replace (Z.of_nat (0 + n) + 1) with N by lia.
    rewrite <- Zle_Qle. apply round_le, Hg. lia.
Qed.

End SweepValues.

Section SweepRows.

Import ITC503.

Lemma zip3_app (a b c a' b' c' : list Q) :
  List.length a = List.length b -> List.length a = List.length c ->
  zip3 (a ++ a') (b ++ b') (c ++ c') = zip3 a b c ++ zip3 a' b' c'.
Proof.
  revert b c. induction a as [|x a IH]; intros [|y b] [|z c]; cbn; try discriminate.
  - reflexivity.
  - intros [= Hb] [= Hc]. f_equal. now apply IH.
Qed.

Lemma zip3_repeat (x y z : Q) (k : nat) :
  zip3 (repeat x k) (repeat y k) (repeat z k) = repeat (x, y, z) k.
Proof. induction k as [|k IH]; cbn; [reflexivity | now f_equal]. Qed.

Lemma zip3_columns (a b c : list Q) :
  List.length a = List.length b -> List.length a = List.length c ->
  setpoints (zip3 a b c) = a /\
  sweep_times (zip3 a b c) = b /\
  hold_times (zip3 a b c) = c.
Proof.
  revert b c. induction a as [|x a IH]; intros [|y b] [|z c]; cbn; try discriminate.
  - now repeat split.
  - intros [= Hb] [= Hc]. destruct (IH b c Hb Hc) as (Ha & Hb' & Hc').
    unfold setpoints, sweep_times, hold_times in *.
    repeat split; cbn; now f_equal.
Qed.

(** The table as [program_sweep] builds it: the resampled columns, then the
    padding. *)
Lemma sweep_rows (temperatures sweep_time hold_time : list Q) (steps : option Z)
    (rows : list (Q * Q * Q)) (N : Z) :
  sweep_arrays temperatures sweep_time hold_time steps = inr rows ->
  N = match steps with
      | None => Z.of_nat (List.length temperatures)
      | Some n => n
      end ->
  exists grid ts ss hs v,
    Numpy.linspace 1 (inject_Z N) N = inr grid /\
    resample grid temperatures = inr ts /\
    resample grid sweep_time = inr ss /\
    resample grid hold_time = inr hs /\
    Numpy.last temperatures = inr v /\
    Numpy.last ts = inr v /\
    1 <= N <= 16 /\
    List.length grid = Z.to_nat N /\
    List.length ts = Z.to_nat N /\
    List.length ss = Z.to_nat N /\
    List.length hs = Z.to_nat N /\
    rows = zip3 ts ss hs ++ repeat (v, 0%Q, 0%Q) (16 - Z.to_nat N).
Proof.
  intros Hrows HN.
  destruct (sweep_arrays_columns _ _ _ _ _ _ Hrows HN)
    as (grid & ts & ss & hs & v & Hgrid & Ht & Hs & Hh & Hlast & Hb & Hlen & ->).
  apply resample_length in Ht as Hts, Hs as Hss, Hh as Hhs.
  destruct Hts as [_ Hts], Hss as [_ Hss], Hhs as [_ Hhs].
  exists grid, ts, ss, hs, v.
  rewrite zip3_app, zip3_repeat by congruence.
  replace (Z.to_nat (16 - N)) with (16 - Z.to_nat N)%nat by lia.
  repeat split; try assumption; try congruence; try lia.
  rewrite <- Hlast. symmetry.
  apply (resample_last N grid temperatures ts); [lia | assumption | assumption].
Qed.

End SweepRows.

(** X3.  On success the slots after the last step are filled with the last
    temperature given and zero times, and the last step itself has the last
    temperature given as its set-point, however many temperatures were
    resampled onto however many steps. *)
Theorem unused_slots_hold_last (temperatures sweep_time hold_time : Numpy.arg)
    (steps : option Z) (rows : list (Q * Q * Q)) (v : Q) :
  ITC503.sweep_arrays (Numpy.array temperatures) (Numpy.array sweep_time)
    (Numpy.array hold_time) steps = inr rows ->
  Numpy.last (Numpy.array temperatures) = inr v ->
  let n := Z.to_nat (step_count temperatures steps) in
  skipn n rows = repeat (v, 0%Q, 0%Q) (16 - n) /\
  nth (n - 1) (setpoints rows) 0%Q = v.
Proof.
  intros Hrows Hv n.
  destruct (sweep_rows _ _ _ _ _ _ Hrows eq_refl)
    as (grid & ts & ss & hs & v' & _ & _ & _ & _ & Hlast & Hts & HN & _ & Lt & Ls & Lh & ->).
  rewrite Hv in Hlast. injection Hlast as <-.
  fold (step_count temperatures steps) in *. fold n in Lt, Ls, Lh.
  assert (Lz : List.length (ITC503.zip3 ts ss hs) = n) by now apply zip3_length.
  split.
  - rewrite skipn_app, Lz, Nat.sub_diag, skipn_all2 by lia. reflexivity.
  - unfold setpoints. rewrite map_app.
    destruct (zip3_columns ts ss hs) as (Hcol & _ & _); [congruence | congruence|].
    unfold setpoints in Hcol. rewrite Hcol.
    rewrite app_nth1 by lia.
    assert (Hne : ts <> []) by (intros ->; cbn in Lt; lia).
    rewrite (last_nth ts Hne), Lt in Hts. now injection Hts.
Qed.

Lemma unused_slots_hold_last_witness :
  let rows := ([(20, 5, 2); (50, 5, 2)] ++ repeat (50, 0, 0) 14)%Q in
  skipn 2 rows = repeat (50, 0, 0)%Q (16 - 2) /\
  nth (2 - 1) (setpoints rows) 0%Q = 50%Q.
Proof.
  apply (unused_slots_hold_last (Numpy.Sequence [10; 20; 30; 40; 50]%Q)
           (Numpy.Scalar 5) (Numpy.Scalar 2) (Some 2)).
  - reflexivity.
  - reflexivity.
Defined.

(** X4.  A sweep time (or hold time) given as a single number is the sweep
    time (hold time) of every step. *)
Theorem single_time_every_step (temperatures sweep_time hold_time : Numpy.arg)
    (steps : option Z) (rows : list (Q * Q * Q)) :
  ITC503.sweep_arrays (Numpy.array temperatures) (Numpy.array sweep_time)
    (Numpy.array hold_time) steps = inr rows ->
  let n := Z.to_nat (step_count temperatures steps) in
  (forall t, Numpy.array sweep_time = [t] -> firstn n (sweep_times rows) = repeat t n) /\
  (forall t, Numpy.array hold_time = [t] -> firstn n (hold_times rows) = repeat t n).
Proof.
  intros Hrows n.
  destruct (sweep_rows _ _ _ _ _ _ Hrows eq_refl)
    as (grid & ts & ss & hs & v & _ & _ & Hs & Hh & _ & _ & _ & Lg & Lt & Ls & Lh & ->).
  fold (step_count temperatures steps) in *. fold n in Lg, Lt, Ls, Lh.
  destruct (zip3_columns ts ss hs) as (_ & Hss & Hhs); [congruence | congruence|].
  split; intros t Ht.
  - unfold sweep_times in *. rewrite map_app, Hss, firstn_app, Ls, Nat.sub_diag.
    rewrite <- Ls, firstn_all. cbn [firstn]. rewrite app_nil_r.
    rewrite Ht, resample_single in Hs. injection Hs as <-. congruence.
  - unfold hold_times in *. rewrite map_app, Hhs, firstn_app, Lh, Nat.sub_diag.
    rewrite <- Lh, firstn_all. cbn [firstn]. rewrite app_nil_r.
    rewrite Ht, resample_single in Hh. injection Hh as <-. congruence.
Qed.

Lemma single_time_every_step_witness :
  firstn 3 (sweep_times ([(100, 5, 2); (400, 5, 2); (500, 5, 2)]
                          ++ repeat (500, 0, 0) 13)%Q)
  = repeat 5%Q 3.
Proof.
  apply (proj1 (single_time_every_step (Numpy.Sequence [100; 200; 300; 400; 500]%Q)
                  (Numpy.Scalar 5) (Numpy.Sequence [2]%Q) (Some 3) _ eq_refl) 5%Q).
  reflexivity.
Defined.

(** X5.  With as many steps as temperatures (the default [steps=None]
    included) the temperatures are not changed by the interpolation: the
    set-points of the table are the temperatures given, in their order, and
    then the last of them in the unused slots. *)
Theorem temperatures_kept (temperatures sweep_time hold_time : Numpy.arg)
    (steps : option Z) (rows : list (Q * Q * Q)) (v : Q) :
  ITC503.sweep_arrays (Numpy.array temperatures) (Numpy.array sweep_time)
    (Numpy.array hold_time) steps = inr rows ->
  step_count temperatures steps = Z.of_nat (List.length (Numpy.array temperatures)) ->
  Numpy.last (Numpy.array temperatures) = inr v ->
  setpoints rows
  = Numpy.array temperatures
    ++ repeat v (16 - List.length (Numpy.array temperatures)).
Proof.
  intros Hrows Hsteps Hv.
  destruct (sweep_rows _ _ _ _ _ _ Hrows eq_refl)
    as (grid & ts & ss & hs & v' & Hgrid & Ht & _ & _ & Hlast & _ & HN & _ & Lt & Ls & Lh & ->).
  rewrite Hv in Hlast. injection Hlast as <-.
  fold (step_count temperatures steps) in *. rewrite Hsteps in *.
  rewrite Nat2Z.id in *.
  destruct (zip3_columns ts ss hs) as (Hcol & _ & _); [congruence | congruence|].
  unfold setpoints in *. rewrite map_app, Hcol, map_repeat. cbn [fst].
  f_equal.
  destruct (grid_shape (Z.of_nat (List.length (Numpy.array temperatures))))
    as [h [Hlin Hh]]; [lia|].
  rewrite Nat2Z.id in Hlin.
  assert (Hne : Numpy.array temperatures <> []).
  { intros E. rewrite E in HN. cbn in HN. lia. }
  rewrite Hgrid in Hlin. injection Hlin as Hlin.
  rewrite (resample_identity _ grid h Hne Hlin) in Ht.
  - now injection Ht.
  - now rewrite Hgrid, Hlin.
  - exact Hh.
Qed.

Lemma temperatures_kept_witness :
  setpoints ([(4, 9, 7); (8, 9, 7); (15, 9, 7); (16, 9, 7)] ++ repeat (16, 0, 0) 12)%Q
  = ([4; 8; 15; 16] ++ repeat 16 (16 - 4))%Q.
Proof.
  apply (temperatures_kept (Numpy.Sequence [4; 8; 15; 16]%Q) (Numpy.Scalar 9)
           (Numpy.Scalar 7) None).
  - reflexivity.
  - reflexivity.
  - reflexivity.
Defined.

(** X6.  A control mode that cannot be read stops [program_sweep] before
    anything is written: when the getter of [control_mode] raises, the call
    raises the same error and has sent the query only; a status line of fewer
    than six characters makes it a [ValueError]. *)
Theorem unreadable_mode_rejected (temperatures sweep_time hold_time : Numpy.arg)
    (steps : option Z) (a : adapter) :
  (forall mode, ~ reports a mode) ->
  exists e,
    ITC503.program_sweep temperatures sweep_time hold_time steps a
    = (inl e, Adapter (status_line a) (sent a ++ [Asked "X"])) /\
    ITC503.control_mode_get_process (status_line a) = inl e /\
    ((String.length (status_line a) <= 5)%nat ->
     e = ValueError "invalid literal for int() with base 10").
Proof.
  intros Hno. unfold reports in Hno.
  destruct (ITC503.control_mode_get_process (status_line a)) as [e|mode] eqn:Hget.
  2: now destruct (Hno mode).
  exists e. repeat split.
  - unfold ITC503.program_sweep, bind at 1.
    now rewrite control_mode_run, Hget.
  - intros Hshort. unfold ITC503.control_mode_get_process in Hget.
    assert (Hslice : forall (s : string) (i : nat),
               (String.length s <= i)%nat -> Py.slice1 i s = EmptyString).
    { induction s as [|c s IH]; intros i Hi; [now destruct i|].
      destruct i as [|i]; cbn in Hi; [lia|]. cbn. apply IH. lia. }
    rewrite (Hslice _ 5%nat Hshort) in Hget. cbn in Hget. now injection Hget.
Qed.

Lemma unreadable_mode_rejected_witness :
  exists e,
    ITC503.program_sweep (Numpy.Sequence [100; 200]%Q) (Numpy.Scalar 5)
      (Numpy.Scalar 2) None (Adapter "X0A0C" [])
    = (inl e, Adapter "X0A0C" ([] ++ [Asked "X"])) /\
    ITC503.control_mode_get_process "X0A0C" = inl e /\
    ((String.length "X0A0C" <= 5)%nat ->
     e = ValueError "invalid literal for int() with base 10").
Proof.
  apply (unreadable_mode_rejected _ _ _ _ (Adapter "X0A0C" [])).
  intros mode H. discriminate H.
Defined.

(** ** The status line and the mapped properties *)

Section StatusLine.

Import Status.

Lemma key_code_control (mode : string) (code : Z) :
  lookup mode ITC503.control_mode_values = Some code <->
  ITC503.key_of code ITC503.control_mode_values = inr mode.
Proof.
  unfold ITC503.control_mode_values. cbn [lookup ITC503.key_of].
  split.
  - repeat (match goal with
            | |- context [String.eqb ?k mode] =>
                destruct (String.eqb_spec k mode) as [<- | ?]
            end; [now intros [= <-]|]).
    discriminate.
  - repeat (match goal with
            | |- context [?v =? code] =>
                destruct (Z.eqb_spec v code) as [<- | ?]
            end; [now intros [= <-]|]).
    discriminate.
Qed.

Lemma key_code_heater (mode : string) (code : Z) :
  lookup mode heater_gas_mode_values = Some code <->
  ITC503.key_of code heater_gas_mode_values = inr mode.
Proof.
  unfold heater_gas_mode_values. cbn [lookup ITC503.key_of].
  split.
  - repeat (match goal with
            | |- context [String.eqb ?k mode] =>
                destruct (String.eqb_spec k mode) as [<- | ?]
            end; [now intros [= <-]|]).
    discriminate.
  - repeat (match goal with
            | |- context [?v =? code] =>
                destruct (Z.eqb_spec v code) as [<- | ?]
            end; [now intros [= <-]|]).
    discriminate.
Qed.

End StatusLine.

(** X7.  The four getters that read the status line agree on one layout: in
    a reply [X.A.C.S..H.L.] [heater_gas_mode] reads the digit after [A],
    [control_mode] the digit after [C], [sweep_status] the two digits after
    [S] as one number, and [auto_pid] the digit after [L]. *)
Theorem status_fields (x h : ascii) (a c s1 s2 l : Z) :
  is_digit a -> is_digit c -> is_digit s1 -> is_digit s2 -> 0 <= l <= 1 ->
  let line := status_reply x (digit_char a) (digit_char c) (digit_char s1)
                (digit_char s2) h (digit_char l) in
  Status.heater_gas_mode_get_process line
  = ITC503.key_of a Status.heater_gas_mode_values /\
  ITC503.control_mode_get_process line
  = ITC503.key_of c ITC503.control_mode_values /\
  Status.sweep_status_get_process line = inr (10 * s1 + s2) /\
  Status.auto_pid_get_process line = inr (l =? 1).
Proof.
  intros Ha Hc Hs1 Hs2 Hl line. subst line. repeat split.
  - each_digit a Ha; reflexivity.
  - each_digit c Hc; reflexivity.
  - each_digit s1 Hs1; each_digit s2 Hs2; reflexivity.
  - assert (Hl' : l = 0 \/ l = 1) by lia. destruct Hl' as [-> | ->]; reflexivity.
Qed.

Lemma status_fields_witness :
  Status.heater_gas_mode_get_process "X0A3C1S12H1L1" = inr "AUTO"%string /\
  ITC503.control_mode_get_process "X0A3C1S12H1L1" = inr "RL"%string /\
  Status.sweep_status_get_process "X0A3C1S12H1L1" = inr 12 /\
  Status.auto_pid_get_process "X0A3C1S12H1L1" = inr true.
Proof.
  apply (status_fields "0" "1" 3 1 1 2 1); unfold is_digit; lia.
Defined.

(** X8.  Writing and reading the control mode agree: the setter accepts a
    mode and sends a code exactly when a status line showing that code after
    [C] reads back as that mode; the modes it accepts are [LL], [RL], [LU]
    and [RU] and no other string.  The same holds for [heater_gas_mode] and
    the digit after [A]. *)
Theorem mode_round_trip (mode : string) (code : Z) (x a s1 s2 h l : ascii) :
  is_digit code ->
  (Status.set_control_mode mode = inr (Status.ControlMode code) <->
   ITC503.control_mode_get_process
     (status_reply x a (digit_char code) s1 s2 h l) = inr mode) /\
  (Status.set_heater_gas_mode mode = inr (Status.HeaterGasMode code) <->
   Status.heater_gas_mode_get_process
     (status_reply x (digit_char code) a s1 s2 h l) = inr mode) /\
  ((exists sent_code, Status.set_control_mode mode = inr (Status.ControlMode sent_code)) <->
   In mode ["LL"; "RL"; "LU"; "RU"]%string).
Proof.
  intros Hcode. repeat split.
  - unfold Status.set_control_mode, Status.mapped_setter.
    destruct (Status.lookup mode ITC503.control_mode_values) as [c|] eqn:Hl;
      [|discriminate].
    intros [= <-]. apply key_code_control in Hl. rewrite <- Hl.
    each_digit c Hcode; reflexivity.
  - intros Hget.
    assert (Hkey : ITC503.key_of code ITC503.control_mode_values = inr mode).
    { rewrite <- Hget. each_digit code Hcode; reflexivity. }
    apply key_code_control in Hkey.
    unfold Status.set_control_mode, Status.mapped_setter. now rewrite Hkey.
  - unfold Status.set_heater_gas_mode, Status.mapped_setter.
    destruct (Status.lookup mode Status.heater_gas_mode_values) as [c|] eqn:Hl;
      [|discriminate].
    intros [= <-]. apply key_code_heater in Hl. rewrite <- Hl.
    each_digit c Hcode; reflexivity.
  - intros Hget.
    assert (Hkey : ITC503.key_of code Status.heater_gas_mode_values = inr mode).
    { rewrite <- Hget. each_digit code Hcode; reflexivity. }
    apply key_code_heater in Hkey.
    unfold Status.set_heater_gas_mode, Status.mapped_setter. now rewrite Hkey.
  - intros [c Hset]. unfold Status.set_control_mode, Status.mapped_setter in Hset.
    unfold ITC503.control_mode_values in Hset. cbn [Status.lookup] in Hset.
    repeat (match type of Hset with
            | context [String.eqb ?k mode] =>
                destruct (String.eqb_spec k mode) as [<- | ?]
            end; [cbn; tauto|]).
    discriminate.
  - intros Hin. cbn in Hin.
    destruct Hin as [<- | [<- | [<- | [<- | []]]]]; eexists; reflexivity.
Qed.

Lemma mode_round_trip_witness :
  Status.set_control_mode "RU" = inr (Status.ControlMode 3) <->
  ITC503.control_mode_get_process "X0A0C3S00H1L0" = inr "RU"%string.
Proof.
  apply (proj1 (mode_round_trip "RU" 3 "0" "0" "0" "0" "1" "0"
                  ltac:(unfold is_digit; lia))).
Defined.

(** ** The pointer validator and the shared set-point range *)

Section PointerValidator.

Import Pointer.

Lemma validated_pair (x y lo hi : Z) (items : list Z) :
  validated [x; y] lo hi = inr items <->
  items = [x; y] /\ lo <= x <= hi /\ lo <= y <= hi.
Proof.
  cbn [validated]. unfold ITC503.strict_range.
  destruct (Z.leb_spec lo x), (Z.leb_spec x hi), (Z.leb_spec lo y), (Z.leb_spec y hi);
    cbn [andb]; split; try discriminate; try (intros [_ ?]; lia).
  - intros [= <-]. repeat split; assumption.
  - now intros [-> _].
Qed.

Lemma validated_no_index_error (items : list Z) (lo hi : Z) (msg : string) :
  validated items lo hi <> inl (IndexError msg).
Proof.
  induction items as [|v items IH]; [discriminate|].
  cbn [validated]. unfold ITC503.strict_range.
  destruct (_ && _); [|discriminate].
  destruct (validated items lo hi) as [e|ok]; [|discriminate].
  intros [= ->]. now apply IH.
Qed.

End PointerValidator.

(** X9.  [pointer_validator] accepts exactly the lists and tuples of two
    items that both lie within the bounds, and returns the two items
    unchanged. *)
Theorem pointer_accepted (value : pyvalue) (lo hi : Z) (items : list Z) :
  Pointer.pointer_validator value lo hi = inr items <->
  (value = PyList items \/ value = PyTuple items) /\
  exists x y, items = [x; y] /\ lo <= x <= hi /\ lo <= y <= hi.
Proof.
  unfold Pointer.pointer_validator. destruct value as [v|vs|vs].
  - cbn. split; [discriminate|]. now intros [[H|H] _].
  - destruct vs as [|x [|y [|z vs]]]; cbn [List.length Nat.eqb negb Pointer.format_g].
    + split; [discriminate|]. intros [[[= <-]|[=]] (x & y & [=] & _)].
    + split; [discriminate|]. intros [[[= <-]|[=]] (x' & y & [=] & _)].
    + destruct (Pointer.validated [x; y] lo hi) as [e|checked_items] eqn:Hv.
      * split; [discriminate|].
        intros [[[= <-]|[=]] (x' & y' & [= <- <-] & Hx & Hy)].
        assert (Hok : Pointer.validated [x; y] lo hi = inr [x; y])
          by now apply validated_pair.
        congruence.
      * apply validated_pair in Hv as (-> & Hx & Hy). split.
        -- intros [= <-]. split; [now left|]. now exists x, y.
        -- now intros [[[= <-]|[=]] _].
    + split; [discriminate|]. intros [[[= <-]|[=]] (x' & y' & [=] & _)].
  - destruct vs as [|x [|y [|z vs]]]; cbn [List.length Nat.eqb negb Pointer.format_g].
    + split; [discriminate|]. intros [[[=]|[= <-]] (x & y & [=] & _)].
    + split; [discriminate|]. intros [[[=]|[= <-]] (x' & y & [=] & _)].
    + destruct (Pointer.validated [x; y] lo hi) as [e|checked_items] eqn:Hv.
      * split; [discriminate|].
        intros [[[=]|[= <-]] (x' & y' & [= <- <-] & Hx & Hy)].
        assert (Hok : Pointer.validated [x; y] lo hi = inr [x; y])
          by now apply validated_pair.
        congruence.
      * apply validated_pair in Hv as (-> & Hx & Hy). split.
        -- intros [= <-]. split; [now right|]. now exists x, y.
        -- now intros [[[=]|[= <-]] _].
    + split; [discriminate|]. intros [[[=]|[= <-]] (x' & y' & [=] & _)].
Qed.

Lemma pointer_accepted_witness :
  Pointer.pointer_validator (PyTuple [16; 3]) 0 128 = inr [16; 3].
Proof.
  apply (proj2 (pointer_accepted (PyTuple [16; 3]) 0 128 [16; 3])).
  split; [now right|]. exists 16, 3. repeat split; lia.
Defined.

(** X10.  The [IndexError] the docstring of [pointer_validator] announces for
    a value that is not of length 2 is never raised: the message of that
    [raise] formats the list with the code [g], which a list and a tuple do
    not take, so a list or tuple of any other length ends in a [TypeError].
    No call raises [IndexError]. *)
Theorem wrong_length_is_type_error (value : pyvalue) (lo hi : Z) :
  (forall items,
      (value = PyList items \/ value = PyTuple items) ->
      List.length items <> 2%nat ->
      exists name,
        Pointer.pointer_validator value lo hi
        = inl (TypeError (UnsupportedFormat name))) /\
  (forall msg, Pointer.pointer_validator value lo hi <> inl (Raised (IndexError msg))).
Proof.
  split.
  - intros items Hvalue Hlen. apply Nat.eqb_neq in Hlen.
    destruct Hvalue as [-> | ->]; unfold Pointer.pointer_validator;
      rewrite Hlen; cbn; eexists; reflexivity.
  - intros msg. unfold Pointer.pointer_validator.
    destruct value as [v|vs|vs]; [discriminate| |].
    + destruct (negb _); [discriminate|].
      destruct (Pointer.validated vs lo hi) as [e|ok] eqn:Hv; [|discriminate].
      intros [= ->]. now apply validated_no_index_error in Hv.
    + destruct (negb _); [discriminate|].
      destruct (Pointer.validated vs lo hi) as [e|ok] eqn:Hv; [|discriminate].
      intros [= ->]. now apply validated_no_index_error in Hv.
Qed.

Lemma wrong_length_is_type_error_witness :
  exists name,
    Pointer.pointer_validator (PyList [1; 2; 3]) 0 128
    = inl (TypeError (UnsupportedFormat name)).
Proof.
  apply (proj1 (wrong_length_is_type_error (PyList [1; 2; 3]) 0 128) [1; 2; 3]).
  - now left.
  - discriminate.
Defined.

Section SharedRange.

Import Status.

Lemma constructed_snoc (calls : list (option Q * option Q)) (call : option Q * option Q)
    (range : T_RANGE) :
  constructed (calls ++ [call]) range
  = init (fst call) (snd call) (constructed calls range).
Proof. unfold constructed. now rewrite fold_left_app. Qed.

Lemma last_given_snoc (given : list (option Q)) (g : option Q) (default : Q) :
  last_given (given ++ [g]) default
  = match g with
    | Some t => t
    | None => last_given given default
    end.
Proof. unfold last_given. now rewrite fold_left_app. Qed.

End SharedRange.

(** X11.  The range of the set-point is shared by all instances: after any
    number of constructions its lower bound is the last [min_temperature]
    any of them gave and its upper bound the last [max_temperature] any of
    them gave; a construction that gives none keeps what earlier ones left,
    and the defaults 0 and 1677.7 hold only while none was ever given. *)
Theorem range_shared (calls : list (option Q * option Q)) (range : Status.T_RANGE) :
  Status.constructed calls range
  = (Status.last_given (map snd calls) (fst range),
     Status.last_given (map fst calls) (snd range)).
Proof.
  induction calls as [|[max_t min_t] calls IH] using rev_ind.
  - now destruct range.
  - rewrite constructed_snoc, IH, !map_app. cbn [map fst snd].
    rewrite !last_given_snoc. unfold Status.init.
    now destruct min_t, max_t.
Qed.

Lemma range_shared_witness :
  Status.constructed [(None, None); (Some 300%Q, None); (None, Some 4%Q); (None, None)]
    Status.default_range
  = (4%Q, 300%Q).
Proof.
  apply (range_shared [(None, None); (Some 300%Q, None); (None, Some 4%Q); (None, None)]
           Status.default_range).
Defined.

(** X12.  A set-point is written clipped to the shared range as it stands at
    the time of the write: the value sent lies between the smaller and the
    larger of the two bounds, and is the value asked for when that lies
    between them. *)
Theorem setpoint_clipped (value : Q) (range : Status.T_RANGE) :
  exists sent_value,
    Status.set_temperature_setpoint value range
    = Status.TemperatureSetpoint sent_value /\
    (Status.lowest range <= sent_value)%Q /\
    (sent_value <= Status.highest range)%Q /\
    ((Status.lowest range <= value)%Q -> (value <= Status.highest range)%Q ->
     sent_value = value).
Proof.
  unfold Status.set_temperature_setpoint, Status.truncated_range.
  eexists. split; [reflexivity|].
  assert (Hord : (Status.lowest range <= Status.highest range)%Q).
  { unfold Status.lowest, Status.highest.
    destruct (Py.leb (fst range) (snd range)) eqn:E.
    - now apply leb_le.
    - unfold Py.leb in E. apply Qlt_le_weak, Qnot_le_lt.
      intros H. apply Qle_bool_iff in H. congruence. }
  destruct (Py.leb (Status.lowest range) value) eqn:Hlo;
    destruct (Py.leb value (Status.highest range)) eqn:Hhi; cbn [andb].
  - apply leb_le in Hlo, Hhi. repeat split; assumption.
  - destruct (Py.ltb (Status.highest range) value) eqn:Hgt.
    + repeat split; [assumption | apply Qle_refl|].
      intros _ H. apply leb_le in H. congruence.
    + apply ltb_ge, leb_le in Hgt. congruence.
  - destruct (Py.ltb (Status.highest range) value) eqn:Hgt.
    + repeat split; [assumption | apply Qle_refl|].
      intros H. apply leb_le in H. congruence.
    + repeat split; [apply Qle_refl | assumption|].
      intros H. apply leb_le in H. congruence.
  - destruct (Py.ltb (Status.highest range) value) eqn:Hgt.
    + repeat split; [assumption | apply Qle_refl|].
      intros H. apply leb_le in H. congruence.
    + apply ltb_ge, leb_le in Hgt. congruence.
Qed.

Lemma setpoint_clipped_witness :
  exists sent_value,
    Status.set_temperature_setpoint 500 (300, 4)%Q
    = Status.TemperatureSetpoint sent_value /\
    (Status.lowest (300, 4)%Q <= sent_value)%Q /\
    (sent_value <= Status.highest (300, 4)%Q)%Q /\
    ((Status.lowest (300, 4)%Q <= 500)%Q -> (500 <= Status.highest (300, 4)%Q)%Q ->
     sent_value = 500%Q).
Proof. apply (setpoint_clipped 500 (300, 4)%Q). Defined.

(** ** More on [wait_for_temperature] *)

Section WaitEffects.

Variable p : params.

(** What the checks of one turn do to the record of the world: they log
    nothing and sleep at most once, for [check_interval]. *)
Lemma checked_effects (n : Z) (t0 : Q) (c : counters) (w w' : world) (f : flow) :
  checked p n t0 c w f w' ->
  logged w' = logged w /\
  (slept w' = slept w \/ slept w' = slept w ++ [check_interval p]).
Proof.
  intros H.
  inversion H as [ | | |w1 _ Hp _|w1 _ Hp _ _|w1 rest _ Hp _ _
                   |w1 rest _ Hp _ _ _|w1 rest _ Hp _ _ _]; subst;
    try (apply logged_passed in Hp as (Hl & _ & Hs));
    cbn [logged slept pop_poll Wait.set_clock]; split;
    try (left; congruence); try reflexivity; try congruence.
  right. congruence.
Qed.

Lemma slept_noted (c : counters) (w : world) (r : string) :
  slept (noted c w r) = slept w.
Proof. unfold noted. now destruct (failed r). Qed.

Lemma repeat_snoc (x : Q) (k : nat) : repeat x k ++ [x] = repeat x (S k).
Proof. induction k as [|k IH]; cbn; [reflexivity | now rewrite IH]. Qed.

(** The polling loop sleeps [check_interval] and nothing else. *)
Lemma poll_loop_sleeps (n : Z) (t0 : Q) (rs : list string) :
  forall (c : counters) (w w' : world) (f : flow) (rest : list string),
    Wait.poll_loop p n t0 rs c w = (f, w', rest) ->
    exists k, slept w' = slept w ++ repeat (check_interval p) k.
Proof.
  induction rs as [|r rs IH]; intros c w w' f rest H.
  - cbn in H. injection H as _ <- _. exists 0%nat. cbn. now rewrite app_nil_r.
  - rewrite poll_loop_cons in H.
    destruct (Wait.checks _ _ _ _ _) as [f1 w1] eqn:Hturn.
    apply checks_inv, checked_effects in Hturn as [_ Hs].
    rewrite slept_noted in Hs.
    assert (Hone : exists k, slept w1 = slept w ++ repeat (check_interval p) k).
    { destruct Hs as [-> | ->]; [exists 0%nat | exists 1%nat]; cbn;
        now rewrite ?app_nil_r. }
    destruct f1 as [c1| | | |];
      try (injection H as _ <- _; exact Hone).
    apply IH in H as [k ->]. destruct Hone as [k1 ->].
    exists (k1 + k)%nat. now rewrite <- app_assoc, repeat_app.
Qed.

(** The wait after stabilising sleeps [check_interval] and nothing else, and
    logs nothing. *)
Lemma thermalize_effects (t1 : Q) (ticks : list Q) :
  forall (w w' : world) (o : outcome),
    Wait.thermalize p t1 ticks w = (o, w') ->
    logged w' = logged w /\
    exists k, slept w' = slept w ++ repeat (check_interval p) k.
Proof.
  induction ticks as [|now ticks IH]; intros w w' o H.
  - cbn in H. injection H as _ <-. split; [reflexivity|].
    exists 0%nat. cbn. now rewrite app_nil_r.
  - cbn [Wait.thermalize] in H.
    destruct (Py.ltb now t1).
    + unfold Wait.sleep in H. destruct (Py.ltb (check_interval p) 0).
      { injection H as _ <-. split; [reflexivity|].
        exists 0%nat. cbn. now rewrite app_nil_r. }
      unfold Wait.should_stop in H.
      cbn [polls clock slept logged Wait.set_clock] in H.
      destruct (polls w) as [|[|] rest].
      * injection H as _ <-. split; [reflexivity|]. now exists 1%nat.
      * injection H as _ <-. split; [reflexivity|]. now exists 1%nat.
      * apply IH in H as [Hl [k Hs]]. cbn [logged slept] in Hl, Hs.
        split; [assumption|]. exists (S k).
        rewrite Hs, <- app_assoc. reflexivity.
    + injection H as _ <-. split; [reflexivity|].
      exists 0%nat. cbn. now rewrite app_nil_r.
Qed.

(** With a sleep that works the wait after stabilising raises nothing. *)
Lemma thermalize_no_raise (t1 : Q) (ticks : list Q) :
  (0 <= check_interval p)%Q ->
  forall (w w' : world) (e : exn),
    Wait.thermalize p t1 ticks w <> (Raises e, w').
Proof.
  intros Hci. apply ltb_ge in Hci.
  induction ticks as [|now ticks IH]; intros w w' e H; [discriminate|].
  cbn [Wait.thermalize] in H.
  destruct (Py.ltb now t1); [|discriminate].
  unfold Wait.sleep in H. rewrite Hci in H.
  destruct (Wait.should_stop _) as [[[|] w1]|]; try discriminate.
  now apply IH in H.
Qed.

(** Whatever way the loop is left, the failed reads among the replies it
    read are the ones it logged, under their running numbers. *)
Lemma poll_loop_logged (n : Z) (t0 : Q) (rs : list string) (w w' : world)
    (f : flow) (rest : list string) :
  Wait.poll_loop p n t0 rs start w = (f, w', rest) ->
  exists used,
    rs = used ++ rest /\
    logged w'
    = logged w ++ map Z.of_nat (seq 1 (List.length (filter failed used))).
Proof.
  intros H. destruct f as [c| c | | e |].
  1: { apply poll_loop_running in H as Hrest. destruct Hrest as [-> _].
       exists rs. rewrite app_nil_r. split; [reflexivity|].
       now apply poll_loop_tolerates in H as [-> _]. }
  all: apply poll_loop_last in H as (pre & r & w1 & -> & Hpre & Hchk);
    try discriminate;
    apply poll_loop_tolerates in Hpre as [Hlog _];
    apply checks_inv, checked_effects in Hchk as [Hl _];
    exists (pre ++ [r]); rewrite <- app_assoc; (split; [reflexivity|]);
    rewrite Hl, logged_noted, Hlog, <- app_assoc; f_equal;
    rewrite filter_app, length_app, seq_app, map_app; f_equal;
    rewrite comm_errors_after; cbn [filter comm_errors start];
    unfold count; destruct (failed r); cbn; try reflexivity;
    f_equal; lia.
Qed.

End WaitEffects.

(** X13.  What a call does to the outside, however it ends: the replies it
    read are a prefix of those scripted; every failed read among them was
    logged once, under the numbers 1, 2, ... in order, and nothing else was
    logged; and every sleep was one of [check_interval]. *)
Theorem wait_effects (p : params) (replies : list string) (w : world) :
  let w' := snd (fst (Wait.wait_for_temperature p replies w)) in
  let rest := snd (Wait.wait_for_temperature p replies w) in
  exists used k,
    replies = used ++ rest /\
    logged w' = logged w ++ map Z.of_nat (seq 1 (List.length (filter failed used))) /\
    slept w' = slept w ++ repeat (check_interval p) k.
Proof.
  cbv zeta. unfold Wait.wait_for_temperature, Wait.polling.
  destruct (Qeq_bool (check_interval p) 0).
  { exists [], 0%nat. cbn. now rewrite !app_nil_r. }
  destruct (clock w) as [|t0 ticks].
  { exists [], 0%nat. cbn. now rewrite !app_nil_r. }
  destruct (Wait.poll_loop _ _ _ _ _ _) as [[f w1] rest1] eqn:Hloop.
  apply poll_loop_logged in Hloop as Hlog. destruct Hlog as (used & Hused & Hlog).
  apply poll_loop_sleeps in Hloop as [k Hs].
  cbn [logged slept Wait.set_clock] in Hlog, Hs.
  destruct f as [c|c| |e|]; try (now exists used, k).
  unfold Wait.settle. destruct (attempt c =? 0); [now exists used, k|].
  destruct (clock w1) as [|now ticks1]; [now exists used, k|].
  destruct (Wait.thermalize _ _ _ _) as [o w2] eqn:Hth. cbn [fst snd].
  apply thermalize_effects in Hth as [Hl2 [k2 Hs2]].
  exists used, (k + k2)%nat. repeat split; [assumption | congruence|].
  now rewrite Hs2, Hs, <- app_assoc, repeat_app.
Qed.

(** X14.  Once the polling loop is left by [break], a call whose
    [check_interval] is not negative raises nothing any more: the wait after
    stabilising is under no timeout and no error budget. *)
Theorem no_error_after_stability (p : params) (replies rest : list string)
    (w w1 : world) (c : counters) :
  Wait.polling p replies w = (Break c, w1, rest) ->
  (0 <= check_interval p)%Q ->
  forall e, fst (fst (Wait.wait_for_temperature p replies w)) <> Raises e.
Proof.
  intros Hbreak Hci e. unfold Wait.wait_for_temperature. rewrite Hbreak.
  unfold Wait.settle. destruct (attempt c =? 0); [discriminate|].
  destruct (clock w1) as [|now ticks]; [discriminate|].
  destruct (Wait.thermalize _ _ _ _) as [o w2] eqn:Hth. cbn [fst].
  intros ->. now apply (thermalize_no_raise p _ _ Hci) in Hth.
Qed.

Lemma no_error_after_stability_witness :
  (0 <= check_interval (Params 1 5 2 2 300 (Some 0%Q)))%Q /\
  fst (fst (Wait.wait_for_temperature (Params 1 5 2 2 300 (Some 0%Q))
              ["R7.0"; "R0.5"; "x"]%string
              (World [0; 1; 2; 100; 200; 500]%Q [false; false; false] [] [])))
  <> Raises timed_out.
Proof.
  split; [discriminate|].
  apply (no_error_after_stability (Params 1 5 2 2 300 (Some 0%Q))
           ["R7.0"; "R0.5"; "x"]%string ["x"%string]
           (World [0; 1; 2; 100; 200; 500]%Q [false; false; false] [] [])
           (World [2; 100; 200; 500]%Q [false; false] [2]%Q [])
           (Counters 1 1 0)).
  - reflexivity.
  - discriminate.
Defined.

Section WaitEdges.

Variable p : params.

(** [int] of a number from 0 up to, not including, 1. *)
Lemma int_small (x : Q) : (0 <= x)%Q -> (x < 1)%Q -> Py.int x = 0.
Proof.
  destruct x as [num den]. unfold Qle, Qlt, Py.int. cbn.
  intros Hlo Hhi. apply Z.quot_small. lia.
Qed.

Lemma intervals_zero :
  (0 <= stability_interval p)%Q ->
  (stability_interval p < check_interval p)%Q ->
  Wait.number_of_intervals p = 0.
Proof.
  intros Hlo Hhi. unfold Wait.number_of_intervals.
  assert (Hci : (0 < check_interval p)%Q) by now apply Qle_lt_trans with (stability_interval p).
  apply int_small.
  - apply Qle_shift_div_l; [assumption|]. now rewrite Qmult_0_l.
  - apply Qlt_shift_div_r; [assumption|]. now rewrite Qmult_1_l.
Qed.

(** Without a timeout the loop does not look at the clock. *)
Lemma poll_loop_clock (n : Z) (t0 : Q) (rs : list string) :
  (timeout p <= 0)%Q ->
  forall (c : counters) (w w' : world) (f : flow) (rest : list string),
    Wait.poll_loop p n t0 rs c w = (f, w', rest) ->
    clock w' = clock w /\ f <> Raise timed_out.
Proof.
  intros Hto. induction rs as [|r rs IH]; intros c w w' f rest H.
  - cbn in H. injection H as <- <- _. split; [reflexivity | discriminate].
  - rewrite poll_loop_cons in H.
    destruct (Wait.checks _ _ _ _ _) as [f1 w1] eqn:Hturn.
    assert (Hstep : clock w1 = clock w /\ f1 <> Raise timed_out).
    { apply checks_inv in Hturn.
      assert (Hpass : forall w2, passed p t0 (noted c w r) w2 -> clock w2 = clock w).
      { intros w2 [[_ ->] | [Hpos _]]; [apply clock_noted|].
        exfalso. apply (Qlt_irrefl 0). now apply Qlt_le_trans with (timeout p). }
      inversion Hturn as [ |_ Hpos _|now ticks _ Hpos _ _|w2 _ Hp _|w2 _ Hp _ _
                          |w2 rest2 _ Hp _ _|w2 rest2 _ Hp _ _ _|w2 rest2 _ Hp _ _ _];
        subst; cbn [clock pop_poll];
        try (exfalso; apply (Qlt_irrefl 0);
             now apply Qlt_le_trans with (timeout p));
        (split; [now rewrite ?clock_noted, ?(Hpass _ Hp) | discriminate]). }
    destruct Hstep as [Hc1 Hf1].
    destruct f1 as [c1| | | |];
      try (injection H as <- <- _; now split).
    apply IH in H as [-> Hf]. now split.
Qed.

End WaitEdges.

(** X15.  A stability interval shorter than the check interval asks for no
    in-band sample at all: the polling loop is left by [break] on the first
    reply whatever it is, a failed read included, and the call returns right
    then unless that reply was out of band. *)
Theorem short_stability_first_read (p : params) (r : string) (rest : list string)
    (w : world) (t0 : Q) (ticks : list Q) :
  (0 <= stability_interval p)%Q ->
  (stability_interval p < check_interval p)%Q ->
  clock w = t0 :: ticks ->
  let w1 := noted start (Wait.set_clock w ticks) r in
  Wait.polling p (r :: rest) w = (Break (tally (error p) start r), w1, rest) /\
  (out_of_band (error p) r = false ->
   Wait.wait_for_temperature p (r :: rest) w = (Returns, w1, rest)).
Proof.
  intros Hlo Hhi Hclock w1.
  assert (Hci : ~ (check_interval p == 0)%Q).
  { intros E. rewrite E in Hhi. apply (Qlt_irrefl 0).
    now apply Qle_lt_trans with (stability_interval p). }
  assert (Hpoll : Wait.polling p (r :: rest) w
                  = (Break (tally (error p) start r), w1, rest)).
  { rewrite (polling_loop p _ w t0 ticks Hci Hclock), poll_loop_cons.
    rewrite (intervals_zero p Hlo Hhi). unfold Wait.checks.
    assert (Hst : 0 <= stable_intervals (tally (error p) start r))
      by (apply (stable_nonneg (error p) [r] start); cbn; lia).
    apply Z.leb_le in Hst. now rewrite Hst. }
  split; [exact Hpoll|].
  intros Hin. unfold Wait.wait_for_temperature, Wait.settle. rewrite Hpoll.
  destruct (tally_cases (error p) start r)
    as [(_ & _ & _ & ->) | [(_ & _ & _ & ->) | (_ & _ & Ho & _)]];
    [reflexivity | reflexivity | congruence].
Qed.

Lemma short_stability_first_read_witness :
  Wait.wait_for_temperature (Params 1 3600 2 1 300 None) ["garbled"; "R9.0"]%string
    (World [0; 1]%Q [false] [] [])
  = (Returns, World [1]%Q [false] [] [1], ["R9.0"%string]).
Proof.
  apply (proj2 (short_stability_first_read (Params 1 3600 2 1 300 None) "garbled"
                  ["R9.0"%string] (World [0; 1]%Q [false] [] []) 0%Q [1%Q]
                  ltac:(discriminate) ltac:(reflexivity) eq_refl)).
  reflexivity.
Defined.

(** X16.  A timeout of zero or less switches the timeout off altogether: the
    polling loop reads the clock once, at its start, and never again, and the
    call never raises the timeout error. *)
Theorem timeout_off (p : params) (replies rest : list string) (w w' : world)
    (f : flow) (t0 : Q) (ticks : list Q) :
  (timeout p <= 0)%Q ->
  clock w = t0 :: ticks ->
  Wait.polling p replies w = (f, w', rest) ->
  (~ (check_interval p == 0)%Q -> clock w' = ticks) /\
  forall msg,
    fst (fst (Wait.wait_for_temperature p replies w)) <> Raises (TimeoutError msg).
Proof.
  intros Hto Hclock Hpoll. split.
  - intros Hci. rewrite (polling_loop p _ w t0 ticks Hci Hclock) in Hpoll.
    now apply (poll_loop_clock p _ _ _ Hto) in Hpoll as [-> _].
  - intros msg Hraise.
    destruct (Wait.wait_for_temperature p replies w) as [[o w2] rest2] eqn:Hwait.
    cbn [fst] in Hraise. subst o.
    apply wait_raises in Hwait as [He | [[msg' He] | (t1 & ticks1 & _ & Hloop)]];
      try discriminate.
    apply poll_loop_last in Hloop as (pre & r & w1 & _ & _ & Hchk); [|discriminate].
    apply checks_inv in Hchk.
    inversion Hchk as [ | |now ticks' _ Hpos _ _| | | | |]; subst.
    apply (Qlt_irrefl 0). now apply Qlt_le_trans with (timeout p).
Qed.

Lemma timeout_off_witness :
  (~ (check_interval (Params 1 (-5) 2 4 300 None) == 0)%Q ->
   clock (World [7; 8]%Q [false] [2; 2]%Q []) = [7; 8]%Q) /\
  forall msg,
    fst (fst (Wait.wait_for_temperature (Params 1 (-5) 2 4 300 None)
                ["R7.0"; "R0.5"; "R0.2"]%string
                (World [0; 7; 8]%Q [false; false; false] [] [])))
    <> Raises (TimeoutError msg).
Proof.
  apply (timeout_off (Params 1 (-5) 2 4 300 None) ["R7.0"; "R0.5"; "R0.2"]%string []
           (World [0; 7; 8]%Q [false; false; false] [] [])
           (World [7; 8]%Q [false] [2; 2]%Q [])
           (Break (Counters 2 1 0)) 0%Q [7; 8]%Q).
  - discriminate.
  - reflexivity.
  - reflexivity.
Defined.

(** X17.  With an error budget [max_comm_errors] of 0 or more, a call reads
    at most one failed reply more than the budget allows, however it ends. *)
Theorem failed_reads_bounded (p : params) (replies : list string) (w : world) (m : Q) :
  max_comm_errors p = Some m ->
  (0 <= m)%Q ->
  exists used,
    replies = used ++ snd (Wait.wait_for_temperature p replies w) /\
    (inject_Z (count failed used) <= m + 1)%Q.
Proof.
  intros Hmax Hm.
  assert (Hzero : (inject_Z 0 <= m + 1)%Q).
  { apply Qle_trans with m; [exact Hm|].
    rewrite <- (Qplus_0_r m) at 1. apply Qplus_le_r. discriminate. }
  assert (Hloop : forall n t0 rs w0 f w1 rest,
             Wait.poll_loop p n t0 rs start w0 = (f, w1, rest) ->
             exists used,
               rs = used ++ rest /\ (inject_Z (count failed used) <= m + 1)%Q).
  { intros n t0 rs w0 f w1 rest H.
    assert (Hprefix : forall pre c1 w2,
               Wait.poll_loop p n t0 pre start w0 = (Continue c1, w2, []) ->
               (inject_Z (count failed pre) <= m)%Q).
    { intros pre c1 w2 Hpre. destruct pre as [|r0 pre].
      - exact Hm.
      - apply poll_loop_running in Hpre as Hc. destruct Hc as [_ Hc].
        apply poll_loop_tolerates in Hpre as [_ Hb].
        specialize (Hb ltac:(discriminate)).
        unfold Wait.over_budget in Hb. rewrite Hmax in Hb. apply ltb_ge in Hb.
        now rewrite Hc, comm_errors_after in Hb. }
    destruct f as [c|c| |e|].
    1: { apply poll_loop_running in H as Hrest. destruct Hrest as [-> _].
         exists rs. rewrite app_nil_r. split; [reflexivity|].
         apply Qle_trans with m; [exact (Hprefix rs c w1 H)|].
         rewrite <- (Qplus_0_r m) at 1. apply Qplus_le_r. discriminate. }
    all: apply poll_loop_last in H as (pre & r & w2 & -> & Hpre & _);
      try discriminate;
      exists (pre ++ [r]); rewrite <- app_assoc; (split; [reflexivity|]);
      rewrite count_app, inject_Z_plus;
      apply Qplus_le_compat; [exact (Hprefix pre _ w2 Hpre)|];
      change 1%Q with (inject_Z 1); rewrite <- Zle_Qle;
      unfold count; cbn [filter]; destruct (failed r); cbn; lia. }
  unfold Wait.wait_for_temperature, Wait.polling.
  destruct (Qeq_bool (check_interval p) 0).
  { exists []. split; [reflexivity | exact Hzero]. }
  destruct (clock w) as [|t0 ticks].
  { exists []. split; [reflexivity | exact Hzero]. }
  destruct (Wait.poll_loop _ _ _ _ _ _) as [[f w1] rest1] eqn:Hl.
  apply Hloop in Hl as (used & Hused & Hcount).
  exists used. split; [|exact Hcount].
  destruct f as [c|c| |e|]; try exact Hused.
  now destruct (Wait.settle p c w1).
Qed.

Lemma failed_reads_bounded_witness :
  exists used,
    ["x"; "R5.0"; "y"; "z"; "R0.1"]%string
    = used ++ snd (Wait.wait_for_temperature (Params 1 0 2 4 300 (Some 1%Q))
                     ["x"; "R5.0"; "y"; "z"; "R0.1"]%string
                     (World [0]%Q [false; false; false; false] [] [])) /\
    (inject_Z (count failed used) <= 1 + 1)%Q.
Proof.
  apply (failed_reads_bounded (Params 1 0 2 4 300 (Some 1%Q))
           ["x"; "R5.0"; "y"; "z"; "R0.1"]%string
           (World [0]%Q [false; false; false; false] [] []) 1%Q).
  - reflexivity.
  - discriminate.
Defined.

(** X18.  With a tolerance [error] of zero or less no sample is in band, so a
    wait that asks for at least one in-band sample never leaves the polling
    loop by [break]: it can end by the timeout, the error budget or
    [should_stop] only. *)
Theorem no_band_no_stability (p : params) (replies : list string) (w : world) :
  (error p <= 0)%Q ->
  1 <= Wait.number_of_intervals p ->
  forall c w' rest, Wait.polling p replies w <> (Break c, w', rest).
Proof.
  intros Herr Hn c w' rest Hbreak.
  unfold Wait.polling in Hbreak.
  destruct (Qeq_bool (check_interval p) 0); [discriminate|].
  destruct (clock w) as [|t0 ticks]; [discriminate|].
  apply break_has_run in Hbreak as (used & _ & _ & _ & Hrun).
  apply has_run_count in Hrun.
  assert (Hnone : count (in_band (error p)) used = 0).
  { clear Hrun. unfold count. induction used as [|r used IH]; [reflexivity|].
    cbn [filter]. unfold in_band at 1.
    destruct (ITC503.float_get_process r) as [e|t]; [exact IH|].
    assert (Hout : Py.ltb (Py.abs t) (error p) = false).
    { apply ltb_ge. apply Qle_trans with 0%Q; [exact Herr | apply Qabs_nonneg]. }
    now rewrite Hout. }
  lia.
Qed.

Lemma no_band_no_stability_witness :
  1 <= Wait.number_of_intervals (Params 0 3600 (1 # 2) 10 300 None) /\
  Wait.polling (Params 0 3600 (1 # 2) 10 300 None) ["R0.0"; "R0.0"]%string
    (World [0; 1; 2]%Q [false; false] [] [])
  <> (Break (Counters 2 0 0), World [1; 2]%Q [false] [1 # 2]%Q [], []).
Proof.
  split; [discriminate|].
  apply (no_band_no_stability (Params 0 3600 (1 # 2) 10 300 None)).
  - discriminate.
  - discriminate.
Defined.

(** ** The trace of the network analyzer *)

Section Trace.

Import N5222A.

Lemma split_free (s : string) : comma_free s = true -> split s = [s].
Proof.
  induction s as [|c s IH]; [reflexivity|].
  cbn [comma_free split]. intros H. apply andb_true_iff in H as [Hc Hs].
  apply negb_true_iff in Hc. now rewrite Hc, (IH Hs).
Qed.

Lemma split_append (s r : string) :
  comma_free s = true -> split (s ++ String "," r) = s :: split r.
Proof.
  induction s as [|c s IH]; [reflexivity|].
  cbn [comma_free String.append split]. intros H.
  apply andb_true_iff in H as [Hc Hs].
  apply negb_true_iff in Hc. now rewrite Hc, (IH Hs).
Qed.

(** Splitting the text of a reply gives back its pieces. *)
Lemma split_joined (pieces : list string) :
  pieces <> [] -> forallb comma_free pieces = true ->
  split (joined pieces) = pieces.
Proof.
  induction pieces as [|piece pieces IH]; [contradiction|].
  intros _ H. cbn [forallb] in H. apply andb_true_iff in H as [Hp Hrest].
  destruct pieces as [|next pieces].
  - now apply split_free.
  - change (joined (piece :: next :: pieces))
      with (piece ++ String "," (joined (next :: pieces)))%string.
    rewrite (split_append _ _ Hp). f_equal.
    apply IH; [discriminate | exact Hrest].
Qed.

Variable float : string -> option Q.

Lemma floats_values (pieces : list string) (vs : list Q) :
  map float pieces = map Some vs -> floats float pieces = inr vs.
Proof.
  revert vs. induction pieces as [|piece pieces IH]; intros [|v vs]; try discriminate.
  - reflexivity.
  - cbn [map floats]. intros [= -> Hrest]. now rewrite (IH vs Hrest).
Qed.

Lemma floats_fail (pieces : list string) :
  (exists e, floats float pieces = inl e) <->
  exists piece, In piece pieces /\ float piece = None.
Proof.
  induction pieces as [|piece pieces IH].
  - split; [intros [e H]; discriminate | intros (piece & [] & _)].
  - cbn [floats]. destruct (float piece) as [v|] eqn:Hf.
    + destruct (floats float pieces) as [e|vs].
      * split.
        -- intros _. destruct (proj1 IH) as (bad & Hin & Hbad); [now exists e|].
           exists bad. split; [now right | assumption].
        -- intros _. now exists e.
      * split; [intros [e H]; discriminate|].
        intros (bad & [<- | Hin] & Hbad); [congruence|].
        destruct (proj2 IH) as [e He]; [now exists bad | discriminate].
    + split.
      * intros _. exists piece. split; [now left | assumption].
      * intros _. now eexists.
Qed.

Lemma combine_points (l : list Q) :
  combine (evens l) (odds l) = points l /\
  forall a, combine (evens (a :: l)) (odds (a :: l)) = points (a :: l).
Proof.
  induction l as [|b l [IH1 IH2]].
  - split; [reflexivity | intros a; reflexivity].
  - split; [apply IH2|].
    intros a. cbn [evens odds combine points]. now rewrite IH1.
Qed.

Lemma points_length (l : list Q) :
  List.length (points l) = Nat.div2 (List.length l) /\
  forall a, List.length (points (a :: l)) = Nat.div2 (List.length (a :: l)).
Proof.
  induction l as [|b l [IH1 IH2]].
  - split; [reflexivity | intros a; reflexivity].
  - split; [apply IH2|].
    intros a. cbn [points List.length Nat.div2]. now rewrite IH1.
Qed.

Lemma points_nth (i : nat) :
  forall l : list Q,
    (i < List.length (points l))%nat ->
    nth i (points l) (0, 0)%Q = (nth (2 * i) l 0%Q, nth (2 * i + 1) l 0%Q).
Proof.
  induction i as [|i IH]; intros [|re [|im l]]; cbn [points List.length];
    try (intros H; lia).
  - reflexivity.
  - intros H. replace (2 * S i)%nat with (S (S (2 * i))) by lia.
    cbn [nth plus]. apply IH. lia.
Qed.

End Trace.

(** X19.  [get_data] pairs the values of the second reply two by two: for
    replies that are comma-separated numbers, the result holds the values of
    the first reply as [x], and [theta] and [r] are the phase and the
    absolute value of the points (value 2i, value 2i+1).  There are half as
    many points as values, rounded down: a value left over at the end is
    dropped, and the count is not compared with that of [x]. *)
Theorem trace_points (float : string -> option Q) (R : Type) (cabs cphase : Q * Q -> R)
    (n : Z) (xpieces ypieces : list string) (xs ys : list Q) :
  xpieces <> [] -> forallb comma_free xpieces = true ->
  ypieces <> [] -> forallb comma_free ypieces = true ->
  map float xpieces = map Some xs ->
  map float ypieces = map Some ys ->
  snd (N5222A.get_data float R cabs cphase n (joined xpieces) (joined ypieces))
  = inr (xs, map cphase (points ys), map cabs (points ys)) /\
  List.length (points ys) = Nat.div2 (List.length ys) /\
  forall i, (i < Nat.div2 (List.length ys))%nat ->
            nth i (points ys) (0, 0)%Q = (nth (2 * i) ys 0%Q, nth (2 * i + 1) ys 0%Q).
Proof.
  intros Hx Hxf Hy Hyf Hxs Hys.
  pose proof (proj1 (points_length ys)) as Hlen.
  repeat split.
  - unfold N5222A.get_data. cbn [snd].
    rewrite (split_joined _ Hx Hxf), (split_joined _ Hy Hyf).
    rewrite (floats_values float _ _ Hxs), (floats_values float _ _ Hys).
    cbv zeta. now rewrite (proj1 (combine_points ys)).
  - exact Hlen.
  - intros i Hi. apply points_nth. lia.
Qed.

Lemma trace_points_witness :
  snd (N5222A.get_data Py.float (Q * Q) (fun z => z) (fun z => z) 1
         (joined ["1.0"; "2.0"]%string) (joined ["0.5"; "0.25"; "3.0"; "4.0"; "9.0"]%string))
  = inr ([1; 2]%Q, [(1 # 2, 1 # 4); (3, 4)]%Q, [(1 # 2, 1 # 4); (3, 4)]%Q).
Proof.
  apply (proj1 (trace_points Py.float (Q * Q) (fun z => z) (fun z => z) 1
                  ["1.0"; "2.0"]%string ["0.5"; "0.25"; "3.0"; "4.0"; "9.0"]%string
                  [1; 2]%Q [1 # 2; 1 # 4; 3; 4; 9]%Q
                  ltac:(discriminate) eq_refl ltac:(discriminate) eq_refl
                  eq_refl eq_refl)).
Defined.

(** X20.  [get_data] raises exactly when some piece of one of the two
    replies is not a number, be it the left-over last value; by then both
    queries were sent and both replies read. *)
Theorem trace_bad_piece (float : string -> option Q) (R : Type)
    (cabs cphase : Q * Q -> R) (n : Z) (X Y : string) :
  fst (N5222A.get_data float R cabs cphase n X Y)
  = [Wrote (SensX n); ReadReply X; Wrote (CalcSData n); ReadReply Y] /\
  ((exists e, snd (N5222A.get_data float R cabs cphase n X Y) = inl e) <->
   exists piece,
     In piece (N5222A.split X ++ N5222A.split Y) /\ float piece = None).
Proof.
  split; [reflexivity|].
  unfold N5222A.get_data. cbn [snd].
  pose proof (floats_fail float (N5222A.split X)) as HX.
  pose proof (floats_fail float (N5222A.split Y)) as HY.
  destruct (N5222A.floats float (N5222A.split X)) as [e|xs].
  - split; [|intros _; now exists e].
    intros _. destruct (proj1 HX) as (piece & Hin & Hbad); [now exists e|].
    exists piece. split; [apply in_or_app; now left | assumption].
  - destruct (N5222A.floats float (N5222A.split Y)) as [e|ys].
    + split; [|intros _; now exists e].
      intros _. destruct (proj1 HY) as (piece & Hin & Hbad); [now exists e|].
      exists piece. split; [apply in_or_app; now right | assumption].
    + split; [intros [e H]; discriminate|].
      intros (piece & Hin & Hbad). apply in_app_or in Hin as [Hin | Hin].
      * destruct (proj2 HX) as [e He]; [now exists piece | discriminate].
      * destruct (proj2 HY) as [e He]; [now exists piece | discriminate].
Qed.
